(** * map_example.py: the column parser and the frame logger

    A shallow embedding of [src/map_example.py].

    - A Python [str] is a [text]: a list of characters.  One [ascii] stands
      for one code point below 256.
    - A text file is given by its decoded contents (after the interpreter's
      newline translation); iterating the file object yields its lines, each
      with its terminating newline.
    - A Python call either returns a value or raises: [outcome].
    - A [dict] is an association list in insertion order, which is the order
      Python iterates it in.
    - The spectrometer ([MicroSpecSimpleInterface]) is external: the replies
      of the successive [captureFrame] calls are an argument of the model. *)

From Stdlib Require Import Ascii String.
From Stdlib Require Import List ZArith Lia Bool Arith.
From Stdlib Require Import Sorting.Sorted.
From Stdlib Require DecimalString DecimalPos DecimalZ.
Import ListNotations.

Set Implicit Arguments.

(** ** Texts *)

Abbreviation text := (list ascii).

Definition NL : ascii := "010"%char.
Definition TAB : ascii := "009"%char.
Definition HASH : ascii := "#"%char.
Definition COMMA : ascii := ","%char.

(** A literal, for examples. *)
Definition T (s : string) : text := list_ascii_of_string s.

(** ** Outcomes of a call *)

Inductive exn : Type :=
| ValueError
| IndexError
| KeyError.

Inductive outcome (A : Type) : Type :=
| Returns (a : A)
| Raises (e : exn).

Arguments Returns {A} a.
Arguments Raises {A} e.

Definition bind {A B} (m : outcome A) (k : A -> outcome B) : outcome B :=
  match m with
  | Returns a => k a
  | Raises e => Raises e
  end.

Notation "x <- m ;; k" := (bind m (fun x => k))
  (at level 61, m at next level, right associativity).

(** [[f(x) for x in xs]]: the calls are made from left to right and the
    first one that raises ends the comprehension. *)
Fixpoint comprehension {A B} (f : A -> outcome B) (xs : list A)
  : outcome (list B) :=
  match xs with
  | [] => Returns []
  | x :: xs' =>
      y <- f x ;;
      ys <- comprehension f xs' ;;
      Returns (y :: ys)
  end.

(** ** String methods used by the script *)

Module Str.

(** [line.startswith(c)] for a one-character prefix. *)
Definition startswith (c : ascii) (s : text) : bool :=
  match s with
  | [] => false
  | a :: _ => Ascii.eqb a c
  end.

Fixpoint lstrip (p : ascii -> bool) (s : text) : text :=
  match s with
  | [] => []
  | a :: s' => if p a then lstrip p s' else s
  end.

Definition rstrip (p : ascii -> bool) (s : text) : text :=
  rev (lstrip p (rev s)).

(** [s.strip(chars)]: every leading and trailing character of the set goes. *)
Definition strip (p : ascii -> bool) (s : text) : text :=
  rstrip p (lstrip p s).

(** [s.split(sep)] for a one-character separator: never the empty list. *)
Fixpoint split (sep : ascii) (s : text) : list text :=
  match s with
  | [] => [[]]
  | a :: s' =>
      if Ascii.eqb a sep then [] :: split sep s'
      else match split sep s' with
           | f :: fs => (a :: f) :: fs
           | [] => [[a]]
           end
  end.

(** [sep.join(parts)]. *)
Fixpoint join (sep : text) (parts : list text) : text :=
  match parts with
  | [] => []
  | [p] => p
  | p :: ps => p ++ sep ++ join sep ps
  end.

End Str.

(** ** Reading a file *)

(** [for line in datafile]: the lines of the contents, each keeping its
    newline; a last line without one is yielded as it is, and an empty file
    yields nothing. *)
Fixpoint readlines (contents : text) : list text :=
  match contents with
  | [] => []
  | a :: rest =>
      if Ascii.eqb a NL then [NL] :: readlines rest
      else match readlines rest with
           | l :: ls => (a :: l) :: ls
           | [] => [[a]]
           end
  end.

(** The condition of the generator expression (line 134). *)
Definition is_data_line (line : text) : bool :=
  negb (Str.startswith HASH line) && negb (Str.startswith NL line).

(** The generator [data] (lines 130-135). *)
Definition data_rows (contents : text) : list (list text) :=
  map (fun line => Str.split TAB (Str.strip (Ascii.eqb NL) line))
      (filter is_data_line (readlines contents)).

(** ** The unzip of line 138: [zip] over the unpacked rows *)

(** One round of [zip]: the next item of every iterator, or nothing as soon
    as one of them is exhausted. *)
Fixpoint heads {A} (rows : list (list A)) : option (list A) :=
  match rows with
  | [] => Some []
  | [] :: _ => None
  | (x :: _) :: rest =>
      match heads rest with
      | Some xs => Some (x :: xs)
      | None => None
      end
  end.

Fixpoint zip_rounds {A} (n : nat) (rows : list (list A)) : list (list A) :=
  match n with
  | O => []
  | S n' =>
      match heads rows with
      | None => []
      | Some hs => hs :: zip_rounds n' (map (@tl A) rows)
      end
  end.

(** [zip] over the unpacked rows: without arguments it is empty; otherwise
    it runs rounds until an iterator is exhausted, which the first one is
    after as many rounds as it has items. *)
Definition zip_star {A} (rows : list (list A)) : list (list A) :=
  match rows with
  | [] => []
  | r :: _ => zip_rounds (length r) rows
  end.

(** ** The two functions of the module *)

(** [strings_from_data_columns], on the contents of the file at the path
    (opening the file has succeeded).  Nothing in its body can raise: the
    generator only filters and splits, and [zip] stops at the shortest row. *)
Definition strings_from_data_columns (contents : text)
  : outcome (list (list text)) :=
  Returns (zip_star (data_rows contents)).

(** ** Builtins *)

Module Py.

(** The white space of [str.isspace], among the code points below 256. *)
Definition isspace (a : ascii) : bool :=
  let n := nat_of_ascii a in
  ((9 <=? n) && (n <=? 13)) || ((28 <=? n) && (n <=? 32))
  || (n =? 133) || (n =? 160).

(** The white space that [int] skips around a literal, among the code
    points below 256: tab, newline, vertical tab, form feed, carriage
    return and space, and the code points 133 and 160.  The separators 28
    to 31 are white space for [str.isspace] but not for [int]. *)
Definition int_space (a : ascii) : bool :=
  let n := nat_of_ascii a in
  ((9 <=? n) && (n <=? 13)) || (n =? 32) || (n =? 133) || (n =? 160).

Definition isdigit (a : ascii) : bool :=
  let n := nat_of_ascii a in (48 <=? n) && (n <=? 57).

Definition digit (a : ascii) : Z := (Z.of_nat (nat_of_ascii a) - 48)%Z.

Definition UNDERSCORE : ascii := "_"%char.

(** The digits after the first one: a single underscore may stand between
    two digits. *)
Fixpoint more_digits (acc : Z) (s : text) : option Z :=
  match s with
  | [] => Some acc
  | a :: s' =>
      if isdigit a then more_digits (10 * acc + digit a)%Z s'
      else if Ascii.eqb a UNDERSCORE then
        match s' with
        | d :: s'' =>
            if isdigit d then more_digits (10 * acc + digit d)%Z s'' else None
        | [] => None
        end
      else None
  end.

Definition digits (s : text) : option Z :=
  match s with
  | d :: s' => if isdigit d then more_digits (digit d) s' else None
  | [] => None
  end.

(** [int(string)] in base 10: the white space [int_space] around the
    literal is dropped, one sign may come first, and anything else raises
    [ValueError].  The
    interpreter's configurable cap on the number of digits is not part of
    the model: integers are unbounded. *)
Definition int (s : text) : outcome Z :=
  let t := Str.strip int_space s in
  let signed :=
    match t with
    | a :: r =>
        if Ascii.eqb a "-" then (true, r)
        else if Ascii.eqb a "+" then (false, r)
        else (false, t)
    | [] => (false, t)
    end in
  match digits (snd signed) with
  | Some n => Returns (if fst signed then (- n)%Z else n)
  | None => Raises ValueError
  end.

(** [str(n)] of an integer. *)
Definition str (n : Z) : text :=
  T (DecimalString.NilZero.string_of_int (Z.to_int n)).

(** [range(lo, hi)], as the list it iterates over. *)
Definition range (lo hi : Z) : list Z :=
  map (fun i => (lo + Z.of_nat i)%Z) (seq 0 (Z.to_nat (hi - lo))).

(** [zip(xs, ys)] of two sequences stops with the shorter one. *)
Definition zip {A B} (xs : list A) (ys : list B) : list (A * B) :=
  combine xs ys.

(** [l[i]]: a negative index counts from the end. *)
Definition subscript {A} (l : list A) (i : Z) : outcome A :=
  let j := if (i <? 0)%Z then (Z.of_nat (length l) + i)%Z else i in
  if (j <? 0)%Z then Raises IndexError
  else match nth_error l (Z.to_nat j) with
       | Some x => Returns x
       | None => Raises IndexError
       end.

(** [a, b = t]. *)
Definition unpack2 {A} (t : list A) : outcome (A * A) :=
  match t with
  | [a; b] => Returns (a, b)
  | _ => Raises ValueError
  end.

End Py.

(** A [dict] with integer keys.  Setting a key that is present keeps its
    place and replaces its value; a new key goes last. *)
Module Dict.

Definition t (V : Type) := list (Z * V).

Fixpoint set {V} (k : Z) (v : V) (d : t V) : t V :=
  match d with
  | [] => [(k, v)]
  | (k', v') :: d' =>
      if Z.eqb k' k then (k', v) :: d' else (k', v') :: set k v d'
  end.

(** [dict(pairs)]. *)
Definition of_pairs {V} (pairs : list (Z * V)) : t V :=
  fold_left (fun d kv => set (fst kv) (snd kv) d) pairs [].

(** [d[k]]. *)
Fixpoint get {V} (k : Z) (d : t V) : outcome V :=
  match d with
  | [] => Raises KeyError
  | (k', v) :: d' => if Z.eqb k' k then Returns v else get k d'
  end.

(** [for k in d]. *)
Definition keys {V} (d : t V) : list Z := map fst d.

End Dict.

(** [ints_from_data_columns] (lines 178-181). *)
Definition ints_from_data_columns (contents : text)
  : outcome (list (list Z)) :=
  data <- strings_from_data_columns contents ;;
  comprehension (fun col => comprehension Py.int col) data.

(** ** The script *)

(** What [kit.captureFrame()] returns, as far as the script reads it. *)
Record Reply : Type := { num_pixels : Z; pixels : list Z }.

(** The dictionary [frame] (lines 219-222). *)
Definition frame_of (reply : Reply) : Dict.t Z :=
  Dict.of_pairs (Py.zip (Py.range 1 (num_pixels reply + 1)) (pixels reply)).

(** The condition of the comprehension (line 226). *)
Definition in_range (start_pixel stop_pixel pixel : Z) : bool :=
  (start_pixel <=? pixel)%Z && (pixel <=? stop_pixel)%Z.

(** The pixels the comprehension of lines 225-227 keeps, in the order it
    meets them. *)
Definition logged_pixels (start_pixel stop_pixel : Z) (frame : Dict.t Z)
  : list Z :=
  filter (in_range start_pixel stop_pixel) (Dict.keys frame).

(** The fields of a data line: [[str(frame[pixel]) for pixel in frame if ...]]. *)
Definition frame_fields (start_pixel stop_pixel : Z) (reply : Reply)
  : outcome (list text) :=
  let frame := frame_of reply in
  comprehension (fun pixel => c <- Dict.get pixel frame ;; Returns (Py.str c))
                (logged_pixels start_pixel stop_pixel frame).

(** [",".join(fields) + "\n"]. *)
Definition line_of (fields : list text) : text :=
  Str.join [COMMA] fields ++ [NL].

(** The string [data] written for one frame (lines 225-227). *)
Definition frame_line (start_pixel stop_pixel : Z) (reply : Reply)
  : outcome text :=
  fields <- frame_fields start_pixel stop_pixel reply ;;
  Returns (line_of fields).

(** The heading of wavelengths (line 205). *)
Definition heading (wav : list Z) : text := line_of (map Py.str wav).

(** What the script reads from the map file (lines 185-199). *)
Record MapInfo : Type :=
  { pix : list Z; wav : list Z; start_pixel : Z; stop_pixel : Z }.

Definition read_map (mapfile : text) : outcome MapInfo :=
  cols <- ints_from_data_columns mapfile ;;
  pw <- Py.unpack2 cols ;;
  start <- Py.subscript (fst pw) 0 ;;
  stop <- Py.subscript (fst pw) (-1) ;;
  let chr_map := Dict.of_pairs (Py.zip (fst pw) (snd pw)) in
  _ <- Dict.get start chr_map ;;
  _ <- Dict.get stop chr_map ;;
  Returns {| pix := fst pw; wav := snd pw;
             start_pixel := start; stop_pixel := stop |}.

(** The datalog loop (lines 215-228) over the replies of its captures:
    [df] is the contents of [datalog.txt], every write appends to it. *)
Fixpoint datalog_loop (start stop : Z) (replies : list Reply) (df : text)
  : text * outcome unit :=
  match replies with
  | [] => (df, Returns tt)
  | reply :: rest =>
      match frame_line start stop reply with
      | Returns data => datalog_loop start stop rest (df ++ data)
      | Raises e => (df, Raises e)
      end
  end.

(** A logging session with [num_frames] frames: the contents of
    [datalog.txt] afterwards and how the session ended.  [kit i] is the
    reply of capture number [i]; [datalog] is the file before the run. *)
Definition session (num_frames : nat) (mapfile : text) (kit : nat -> Reply)
  (datalog : text) : text * outcome unit :=
  match read_map mapfile with
  | Raises e => (datalog, Raises e)
  | Returns m =>
      (* mode "w": the file is truncated *)
      let df := heading (wav m) in
      datalog_loop (start_pixel m) (stop_pixel m)
                   (map kit (seq 0 num_frames)) df
  end.

(** The script (lines 183-246): three frames, then one more capture whose
    pixel 273 is printed. *)
Definition main (mapfile : text) (kit : nat -> Reply) (datalog : text)
  : text * outcome unit :=
  match session 3 mapfile kit datalog with
  | (df, Raises e) => (df, Raises e)
  | (df, Returns _) =>
      (df, _ <- Dict.get 273 (frame_of (kit 3%nat)) ;; Returns tt)
  end.

(** ** Notions used by the statements *)

(** The shortest length among the rows; 0 when there is no row. *)
Fixpoint min_len {A} (rows : list (list A)) : nat :=
  match rows with
  | [] => 0
  | [r] => length r
  | r :: rest => Nat.min (length r) (min_len rest)
  end.

(** The surviving lines of a file, without their newline: the data rows as
    they stand in the file. *)
Definition surviving_rows (contents : text) : list text :=
  map (Str.strip (Ascii.eqb NL)) (filter is_data_line (readlines contents)).

(** The number of rows of a set of columns: the length of its first
    column, and none when there is no column. *)
Definition row_count (cols : list (list text)) : nat :=
  match cols with
  | [] => 0
  | col :: _ => length col
  end.

(** Joining the columns again, row by row, with tabs: row [j] is entry [j]
    of every column, in the order of the columns. *)
Definition rejoin (cols : list (list text)) : list text :=
  map (fun j => Str.join [TAB] (map (fun col => nth j col []) cols))
      (seq 0 (row_count cols)).

(** A comment line or a blank line of a file. *)
Definition is_comment_or_blank (line : text) : Prop :=
  Str.startswith HASH line = true \/ line = [NL].

(** The number of comma-separated fields of a line of the log: an empty
    line holds none. *)
Definition field_count (line : text) : nat :=
  match Str.strip (Ascii.eqb NL) line with
  | [] => 0
  | s => length (Str.split COMMA s)
  end.

(** White space that can stand inside a field: not a tab, not a newline. *)
Definition is_blank (a : ascii) : bool :=
  Py.isspace a && negb (Ascii.eqb a TAB) && negb (Ascii.eqb a NL).


(** The number a run of decimal digits writes. *)
Definition decimal_value (ds : text) : Z :=
  fold_left (fun acc a => (10 * acc + Py.digit a)%Z) ds 0%Z.


(** The entry of a frame's counts for pixel [p] (pixels count from 1). *)
Definition count_at (reply : Reply) (p : Z) : Z :=
  nth (Z.to_nat (p - 1)) (pixels reply) 0%Z.

(** The pixels a frame really has: as many as it declares and delivers. *)
Definition frame_size (reply : Reply) : Z :=
  Z.min (Z.max 0 (num_pixels reply)) (Z.of_nat (length (pixels reply))).

(** The counts a frame contributes to its line, in the order written. *)
Definition frame_values (start stop : Z) (reply : Reply) : list Z :=
  map (count_at reply) (logged_pixels start stop (frame_of reply)).

(** A character that is neither the field separator nor the line end of
    the log. *)
Definition plain (a : ascii) : Prop := a <> COMMA /\ a <> NL.

(** ** Sample inputs *)

(** A map file whose pixel column skips pixel 2. *)
Definition sparse_file : text :=
  T "1" ++ [TAB] ++ T "10" ++ [NL] ++ T "3" ++ [TAB] ++ T "30" ++ [NL].

(** A map file with one row for each of the pixels 2, 3 and 4. *)
Definition dense_file : text :=
  T "2" ++ [TAB] ++ T "20" ++ [NL] ++ T "3" ++ [TAB] ++ T "30" ++ [NL]
  ++ T "4" ++ [TAB] ++ T "40" ++ [NL].


(** A map file whose pixel column decreases. *)
Definition reversed_file : text :=
  T "5" ++ [TAB] ++ T "50" ++ [NL] ++ T "1" ++ [TAB] ++ T "10" ++ [NL].

(** What the script reads from the last three map files. *)
Definition dense_map : MapInfo :=
  {| pix := [2; 3; 4]%Z; wav := [20; 30; 40]%Z;
     start_pixel := 2; stop_pixel := 4 |}.
Definition reversed_map : MapInfo :=
  {| pix := [5; 1]%Z; wav := [50; 10]%Z;
     start_pixel := 5; stop_pixel := 1 |}.

(** Frames of one, three and five pixels. *)
Definition frame1 : Reply := {| num_pixels := 1; pixels := [7%Z] |}.
Definition frame3 : Reply := {| num_pixels := 3; pixels := [7; 8; 9]%Z |}.
Definition frame5 : Reply :=
  {| num_pixels := 5; pixels := [11; 12; 13; 14; 15]%Z |}.

(** Two rows, of two fields and of one. *)
Definition ragged_file : text :=
  T "1" ++ [TAB] ++ T "2" ++ [NL] ++ T "3" ++ [NL].

(** Two rows of two fields each, between a comment and a blank line. *)
Definition uniform_file : text :=
  T "# pixel, nm" ++ [NL] ++ T "227" ++ [TAB] ++ T "280" ++ [NL] ++ [NL]
  ++ T "364" ++ [TAB] ++ T "1017" ++ [NL].

(** Comments and blank lines only. *)
Definition comment_file : text :=
  T "# a" ++ [NL] ++ [NL] ++ T "#" ++ [NL] ++ [NL].

(** Fields with blanks around them and with signs. *)
Definition signed_file : text :=
  T " +227 " ++ [TAB] ++ T "-280" ++ [NL] ++ T "364" ++ [TAB] ++ T "007 "
  ++ [NL].

(** A map file whose first row has a third field that is no number. *)
Definition garbage_file : text :=
  T "1" ++ [TAB] ++ T "10" ++ [TAB] ++ T "xyz" ++ [NL]
  ++ T "3" ++ [TAB] ++ T "30" ++ [NL].

(** A map file with a line of two spaces after its only row. *)
Definition spaces_file : text :=
  T "1" ++ [TAB] ++ T "10" ++ [NL] ++ T "  " ++ [NL].

(** [s] is the body of the line [l]: the line without the newline that ends
    it; only a last line may lack that newline, and is not empty then. *)
Definition line_body (l s : text) : Prop :=
  Forall (fun a => a <> NL) s /\ (l = s ++ [NL] \/ (l = s /\ s <> [])).

(** A map file of three columns. *)
Definition wide_file : text :=
  T "1" ++ [TAB] ++ T "10" ++ [TAB] ++ T "100" ++ [NL].

(** A frame of 273 pixels, each with the count 4. *)
Definition frame273 : Reply :=
  {| num_pixels := 273; pixels := repeat 4%Z 273 |}.


(** * Properties *)

(** ** Lists read by position *)

Section Positions.

Variable A : Type.
Variable d : A.

Lemma map_nth_positions (l : list A) :
  map (fun i => nth i l d) (seq 0 (length l)) = l.
Proof.
  induction l as [|x l IH]; simpl; [reflexivity|].
  f_equal. rewrite <- seq_shift, map_map. exact IH.
Qed.

Lemma nth_tl (l : list A) (j : nat) : nth j (tl l) d = nth (S j) l d.
Proof. destruct l; [destruct j|]; reflexivity. Qed.

End Positions.

(** ** The unzip *)

Section Unzip.

Variable A : Type.
Variable d : A.

Implicit Types rows : list (list A).

Lemma min_len_cons r rows :
  rows <> [] -> min_len (r :: rows) = Nat.min (length r) (min_len rows).
Proof. destruct rows; [congruence | reflexivity]. Qed.

Lemma heads_None rows : heads rows = None -> min_len rows = 0.
Proof.
  induction rows as [|r rows IH]; simpl; [discriminate|].
  destruct r as [|x r].
  - intros _. destruct rows; reflexivity.
  - destruct (heads rows) eqn:E; [discriminate|]. intros _.
    destruct rows as [|r' rows']; [discriminate|].
    rewrite IH by reflexivity. apply Nat.min_0_r.
Qed.

Lemma heads_Some rows hs :
  heads rows = Some hs ->
  hs = map (fun r => nth 0 r d) rows /\
  (rows <> [] -> min_len rows = S (min_len (map (@tl A) rows))).
Proof.
  revert hs. induction rows as [|r rows IH]; simpl; intros hs H.
  - inversion H. split; [reflexivity | congruence].
  - destruct r as [|x r]; [discriminate|].
    destruct (heads rows) as [xs|] eqn:E; [|discriminate].
    inversion H; subst hs. destruct (IH xs eq_refl) as [-> Hm].
    split; [reflexivity|]. intros _.
    destruct rows as [|r' rows']; [reflexivity|].
    change (Nat.min (S (length r)) (min_len (r' :: rows')) =
            S (Nat.min (length r) (min_len (map (@tl A) (r' :: rows'))))).
    rewrite Hm by discriminate. reflexivity.
Qed.

Lemma zip_rounds_positions n rows :
  rows <> [] ->
  zip_rounds n rows =
  map (fun j => map (fun r => nth j r d) rows)
      (seq 0 (Nat.min n (min_len rows))).
Proof.
  revert rows. induction n as [|n IH]; intros rows Hne; simpl zip_rounds.
  - reflexivity.
  - destruct (heads rows) as [hs|] eqn:E.
    + destruct (heads_Some _ E) as [-> Hm]. rewrite (Hm Hne).
      rewrite IH by (destruct rows; [congruence | discriminate]).
      simpl. f_equal. rewrite <- seq_shift, !map_map.
      apply map_ext. intros j. rewrite map_map.
      apply map_ext. intros r. apply nth_tl.
    + rewrite (heads_None _ E), Nat.min_0_r. reflexivity.
Qed.

Lemma min_len_le_first r rows : min_len (r :: rows) <= length r.
Proof. destruct rows; simpl; [lia | apply Nat.le_min_l]. Qed.

(** Column [j] of the result is made of field [j] of every row, for [j]
    below the shortest row length. *)
Lemma zip_star_positions rows :
  zip_star rows =
  map (fun j => map (fun r => nth j r d) rows) (seq 0 (min_len rows)).
Proof.
  destruct rows as [|r rows]; [reflexivity|].
  unfold zip_star. rewrite zip_rounds_positions by discriminate.
  rewrite Nat.min_r by apply min_len_le_first. reflexivity.
Qed.

Lemma zip_star_length rows : length (zip_star rows) = min_len rows.
Proof. rewrite zip_star_positions, length_map, length_seq. reflexivity. Qed.

Lemma zip_star_column_length rows :
  Forall (fun col => length col = length rows) (zip_star rows).
Proof.
  rewrite zip_star_positions. apply Forall_forall. intros col Hin.
  apply in_map_iff in Hin. destruct Hin as [j [<- _]]. apply length_map.
Qed.

Lemma min_len_lower rows : Forall (fun r => min_len rows <= length r) rows.
Proof.
  induction rows as [|r rows IH]; constructor.
  - apply min_len_le_first.
  - destruct rows as [|r' rows']; [constructor|].
    rewrite min_len_cons by discriminate.
    eapply Forall_impl; [|exact IH]. simpl. intros; lia.
Qed.

Lemma min_len_attained rows :
  rows <> [] -> Exists (fun r => length r = min_len rows) rows.
Proof.
  induction rows as [|r rows IH]; [congruence|]. intros _.
  destruct rows as [|r' rows']; [left; reflexivity|].
  rewrite min_len_cons by discriminate.
  destruct (Nat.min_spec (length r) (min_len (r' :: rows'))) as [[_ E]|[_ E]];
    rewrite E.
  - left; reflexivity.
  - right. apply IH. discriminate.
Qed.

Lemma min_len_uniform rows c :
  rows <> [] -> Forall (fun r => length r = c) rows -> min_len rows = c.
Proof.
  intros Hne Hall. apply min_len_attained in Hne.
  apply Exists_exists in Hne. destruct Hne as [r [Hin <-]].
  rewrite Forall_forall in Hall. apply Hall, Hin.
Qed.


End Unzip.

Section UnzipTwice.

Variable A : Type.
Variable d : A.

Lemma nth_field_column (rows : list (list A)) i j :
  i < length rows ->
  nth i (map (fun r => nth j r d) rows) d = nth j (nth i rows []) d.
Proof.
  intros Hi.
  rewrite (nth_indep _ d (nth j [] d)) by (rewrite length_map; exact Hi).
  apply (map_nth (fun r => nth j r d)).
Qed.

(** Unzipping twice gives the rows back when they all have the same,
    positive, length. *)
Lemma zip_star_involutive (rows : list (list A)) (c : nat) :
  0 < c -> Forall (fun r => length r = c) rows ->
  zip_star (zip_star rows) = rows.
Proof.
  intros Hc Hall.
  assert (Hcase : rows = [] \/ rows <> [])
    by (destruct rows; [left | right]; congruence).
  destruct Hcase as [-> | Hrows]; [reflexivity|].
  pose proof (min_len_uniform Hrows Hall) as Hmin.
  rewrite (zip_star_positions d (zip_star rows)).
  rewrite (@min_len_uniform _ (zip_star rows) (length rows)).
  - transitivity (map (fun i => nth i rows []) (seq 0 (length rows)));
      [|apply map_nth_positions].
    apply map_ext_in. intros i Hi. apply in_seq in Hi.
    rewrite (zip_star_positions d rows), map_map, Hmin.
    assert (Hlen : length (nth i rows []) = c).
    { rewrite Forall_forall in Hall. apply Hall, nth_In. lia. }
    transitivity (map (fun j => nth j (nth i rows []) d) (seq 0 c));
      [|rewrite <- Hlen; apply map_nth_positions].
    apply map_ext. intros j. apply nth_field_column. lia.
  - intros E. apply (f_equal (@length _)) in E.
    rewrite (zip_star_length d), Hmin in E. simpl in E. lia.
  - apply (zip_star_column_length d).
Qed.

End UnzipTwice.

(** ** Splitting and joining *)

Lemma split_not_nil sep s : Str.split sep s <> [].
Proof.
  destruct s as [|a s]; simpl; [discriminate|].
  destruct (Ascii.eqb a sep); [discriminate|].
  destruct (Str.split sep s); discriminate.
Qed.

Lemma split_length_pos sep s : 0 < length (Str.split sep s).
Proof.
  pose proof (split_not_nil sep s). destruct (Str.split sep s);
    [congruence | simpl; lia].
Qed.

Lemma join_cons_cons sep p q qs :
  Str.join sep (p :: q :: qs) = p ++ sep ++ Str.join sep (q :: qs).
Proof. reflexivity. Qed.

Lemma join_split sep s : Str.join [sep] (Str.split sep s) = s.
Proof.
  induction s as [|a s IH]; [reflexivity|]. simpl Str.split.
  pose proof (split_not_nil sep s) as Hne.
  destruct (Ascii.eqb_spec a sep) as [->|Hneq].
  - destruct (Str.split sep s) as [|f fs]; [congruence|].
    rewrite join_cons_cons, IH. reflexivity.
  - destruct (Str.split sep s) as [|f fs]; [congruence|].
    destruct fs as [|g gs].
    + simpl in *. congruence.
    + rewrite join_cons_cons. rewrite join_cons_cons in IH.
      simpl. f_equal. exact IH.
Qed.

Lemma data_rows_fields contents :
  Forall (fun row => 0 < length row) (data_rows contents).
Proof.
  apply Forall_forall. intros row Hin. apply in_map_iff in Hin.
  destruct Hin as [line [<- _]]. apply split_length_pos.
Qed.

(** ** The column parser *)


(** C1, as the code has it: for every input file in which two surviving
    rows have different field counts, [strings_from_data_columns] raises
    nothing; it returns as many columns as the shortest surviving row has
    fields, which is fewer than one of the two rows has. *)
Theorem ragged_rows_are_truncated (contents : text) (r1 r2 : list text) :
  In r1 (data_rows contents) -> In r2 (data_rows contents) ->
  length r1 <> length r2 ->
  exists cols,
    strings_from_data_columns contents = Returns cols /\
    length cols = min_len (data_rows contents) /\
    (length cols < length r1 \/ length cols < length r2).
Proof.
  intros H1 H2 Hneq. exists (zip_star (data_rows contents)).
  rewrite (zip_star_length []). split; [reflexivity|]. split; [reflexivity|].
  pose proof (min_len_lower (data_rows contents)) as Hlow.
  rewrite Forall_forall in Hlow.
  pose proof (Hlow _ H1). pose proof (Hlow _ H2). lia.
Qed.

Lemma ragged_rows_are_truncated_witness :
  exists cols,
    strings_from_data_columns ragged_file = Returns cols /\
    length cols = min_len (data_rows ragged_file) /\
    (length cols < length [T "1"; T "2"] \/ length cols < length [T "3"]).
Proof.
  apply (@ragged_rows_are_truncated ragged_file [T "1"; T "2"] [T "3"]).
  - left; reflexivity.
  - right; left; reflexivity.
  - discriminate.
Defined.

(** C1, as stated, fails: the file with the rows [1<TAB>2] and [3] has rows
    of two fields and of one, and the call returns the single column
    [("1", "3")] instead of raising. *)
Lemma ragged_rows_do_not_raise :
  data_rows ragged_file = [[T "1"; T "2"]; [T "3"]] /\
  strings_from_data_columns ragged_file = Returns [[T "1"; T "3"]].
Proof. split; reflexivity. Qed.

(** C6: for every input whose surviving rows all have the same number of
    fields, joining the parsed columns again row by row with tabs (row [j]
    is entry [j] of every column, in column order) gives the surviving rows
    of the file, in order: no field is lost or moved. *)
Theorem parse_then_rejoin (contents : text) (c : nat) :
  Forall (fun row => length row = c) (data_rows contents) ->
  exists cols,
    strings_from_data_columns contents = Returns cols /\
    rejoin cols = surviving_rows contents.
Proof.
  intros Hall. exists (zip_star (data_rows contents)).
  split; [reflexivity|].
  assert (Hjoin : map (Str.join [TAB]) (data_rows contents) =
                  surviving_rows contents).
  { unfold data_rows, surviving_rows. rewrite map_map.
    apply map_ext. intros line. apply join_split. }
  rewrite <- Hjoin. clear Hjoin.
  pose proof (data_rows_fields contents) as Hpos.
  remember (data_rows contents) as rows eqn:Erows. clear Erows.
  destruct rows as [|r0 rows0] eqn:E; [reflexivity|].
  rewrite <- E in *. assert (Hne : rows <> []) by (subst; discriminate).
  assert (Hc : 0 < c).
  { rewrite E in Hall, Hpos. inversion Hall; inversion Hpos; subst.
    assumption. }
  clear E r0 rows0.
  pose proof (min_len_uniform Hne Hall) as Hmin.
  assert (Hcols : zip_star rows =
                  map (fun i => map (fun r => nth i r []) rows) (seq 0 c))
    by (rewrite (zip_star_positions []), Hmin; reflexivity).
  assert (Hcount : row_count (zip_star rows) = length rows).
  { rewrite Hcols. destruct c as [|c']; [lia|]. simpl. apply length_map. }
  unfold rejoin. rewrite Hcount.
  transitivity (map (Str.join [TAB])
                    (map (fun j => nth j rows []) (seq 0 (length rows))));
    [|rewrite map_nth_positions; reflexivity].
  rewrite map_map. apply map_ext_in. intros j Hj. apply in_seq in Hj.
  f_equal. rewrite Hcols, map_map.
  assert (Hlen : length (nth j rows []) = c).
  { rewrite Forall_forall in Hall. apply Hall, nth_In. lia. }
  transitivity (map (fun i => nth i (nth j rows []) []) (seq 0 c));
    [|rewrite <- Hlen; apply map_nth_positions].
  apply map_ext. intros i. apply nth_field_column. lia.
Qed.

Lemma parse_then_rejoin_witness :
  exists cols,
    strings_from_data_columns uniform_file = Returns cols /\
    rejoin cols = surviving_rows uniform_file.
Proof.
  apply (@parse_then_rejoin uniform_file 2).
  repeat constructor.
Defined.

(** C8: for every file made of comment lines and blank lines only,
    [strings_from_data_columns] returns the empty tuple: no column, no row,
    no error. *)
Theorem comments_and_blanks_give_no_columns (contents : text) :
  Forall is_comment_or_blank (readlines contents) ->
  strings_from_data_columns contents = Returns [].
Proof.
  intros Hall. unfold strings_from_data_columns, data_rows.
  replace (filter is_data_line (readlines contents)) with (@nil text);
    [reflexivity|].
  induction Hall as [|line lines Hline _ IH]; [reflexivity|].
  simpl. rewrite <- IH.
  destruct Hline as [Hc | ->]; unfold is_data_line.
  - rewrite Hc. reflexivity.
  - reflexivity.
Qed.

Lemma comments_and_blanks_give_no_columns_witness :
  strings_from_data_columns comment_file = Returns [].
Proof.
  apply (@comments_and_blanks_give_no_columns comment_file).
  repeat first
    [ apply Forall_nil
    | apply Forall_cons; [first [left; reflexivity | right; reflexivity]|] ].
Defined.

(** ** Comprehensions *)

Lemma comprehension_Forall2 (A B : Type) (f : A -> outcome B)
  (R : A -> B -> Prop) (xs : list A) :
  (forall x, In x xs -> exists y, f x = Returns y /\ R x y) ->
  exists ys, comprehension f xs = Returns ys /\ Forall2 R xs ys.
Proof.
  induction xs as [|x xs IH]; intros H.
  - exists []. split; [reflexivity | constructor].
  - destruct (H x (or_introl eq_refl)) as [y [Ey Ry]].
    destruct IH as [ys [Eys Rys]]; [intros; apply H; right; assumption|].
    exists (y :: ys). simpl. rewrite Ey. simpl. rewrite Eys. simpl.
    split; [reflexivity | constructor; assumption].
Qed.

Lemma comprehension_total (A B : Type) (f : A -> B) (xs : list A) :
  comprehension (fun x => Returns (f x)) xs = Returns (map f xs).
Proof.
  induction xs as [|x xs IH]; simpl; [reflexivity|].
  rewrite IH. reflexivity.
Qed.

Lemma comprehension_ext_in (A B : Type) (f g : A -> outcome B) (xs : list A) :
  (forall x, In x xs -> f x = g x) -> comprehension f xs = comprehension g xs.
Proof.
  induction xs as [|x xs IH]; intros H; simpl; [reflexivity|].
  rewrite (H x (or_introl eq_refl)), IH; [reflexivity|].
  intros; apply H; right; assumption.
Qed.

(** ** Stripping *)

Section Strip.

Variable p : ascii -> bool.

Lemma lstrip_app (pre s : text) :
  Forall (fun a => p a = true) pre ->
  Str.lstrip p (pre ++ s) = Str.lstrip p s.
Proof.
  induction 1 as [|a pre Ha _ IH]; simpl; [reflexivity|].
  rewrite Ha. exact IH.
Qed.

Lemma lstrip_kept (a : ascii) (s : text) :
  p a = false -> Str.lstrip p (a :: s) = a :: s.
Proof. intros H; simpl; rewrite H; reflexivity. Qed.

Lemma rstrip_app (s post : text) :
  Forall (fun a => p a = true) post ->
  Str.rstrip p (s ++ post) = Str.rstrip p s.
Proof.
  intros H. unfold Str.rstrip. rewrite rev_app_distr, lstrip_app;
    [reflexivity | apply Forall_rev; exact H].
Qed.

Lemma rstrip_kept (s : text) (b : ascii) :
  p b = false -> Str.rstrip p (s ++ [b]) = s ++ [b].
Proof.
  intros H. unfold Str.rstrip. rewrite rev_app_distr. simpl rev at 2.
  simpl app. rewrite lstrip_kept by exact H.
  change (b :: rev s) with ([b] ++ rev s).
  rewrite rev_app_distr, rev_involutive. reflexivity.
Qed.

(** Stripping removes exactly the padding around a core that begins and
    ends with a character outside the set. *)
Lemma strip_padding (pre post r : text) (a b : ascii) (core : text) :
  Forall (fun a => p a = true) pre ->
  Forall (fun a => p a = true) post ->
  core = a :: r -> p a = false ->
  (exists r', core = r' ++ [b]) -> p b = false ->
  Str.strip p (pre ++ core ++ post) = core.
Proof.
  intros Hpre Hpost Hhd Ha [r' Hlast] Hb. unfold Str.strip.
  rewrite lstrip_app by exact Hpre.
  rewrite Hhd. simpl app. rewrite lstrip_kept by exact Ha.
  change (a :: r ++ post) with ((a :: r) ++ post). rewrite <- Hhd.
  rewrite rstrip_app by exact Hpost.
  rewrite Hlast. apply rstrip_kept. exact Hb.
Qed.

End Strip.

(** ** Reading integers *)

Lemma isdigit_not_int_space a :
  Py.isdigit a = true -> Py.int_space a = false.
Proof.
  destruct a as [[] [] [] [] [] [] [] []]; intros H;
    first [reflexivity | discriminate H].
Qed.

Lemma isdigit_not_sign a :
  Py.isdigit a = true ->
  Ascii.eqb a "-" = false /\ Ascii.eqb a "+" = false /\
  Ascii.eqb a Py.UNDERSCORE = false.
Proof.
  destruct a as [[] [] [] [] [] [] [] []]; intros H;
    first [repeat split; reflexivity | discriminate H].
Qed.


Lemma more_digits_all (ds : text) (acc : Z) :
  Forall (fun a => Py.isdigit a = true) ds ->
  Py.more_digits acc ds =
  Some (fold_left (fun acc a => (10 * acc + Py.digit a)%Z) ds acc).
Proof.
  intros H. revert acc. induction H as [|a ds Ha _ IH]; intros acc;
    simpl; [reflexivity|].
  rewrite Ha. apply IH.
Qed.

Lemma digits_all (ds : text) :
  ds <> [] -> Forall (fun a => Py.isdigit a = true) ds ->
  Py.digits ds = Some (decimal_value ds).
Proof.
  intros Hne H. destruct H as [|a ds Ha Hds]; [congruence|].
  unfold Py.digits, decimal_value. rewrite Ha.
  rewrite more_digits_all by exact Hds. reflexivity.
Qed.



Lemma column_field_in_row (rows : list (list text)) (col : list text)
  (f : text) :
  In col (zip_star rows) -> In f col -> exists row, In row rows /\ In f row.
Proof.
  rewrite (zip_star_positions []). intros Hcol Hf.
  apply in_map_iff in Hcol. destruct Hcol as [j [<- Hj]].
  apply in_seq in Hj. apply in_map_iff in Hf. destruct Hf as [row [<- Hrow]].
  exists row. split; [exact Hrow|]. apply nth_In.
  pose proof (min_len_lower rows) as Hlow. rewrite Forall_forall in Hlow.
  specialize (Hlow _ Hrow). lia.
Qed.



(** The separators 28 to 31 are not skipped by [int]. *)
Example int_keeps_file_separator :
  Py.int ["028"%char; "5"%char] = Raises ValueError /\
  Py.int ["5"%char; "031"%char] = Raises ValueError /\
  Py.int ["160"%char; "5"%char; "133"%char] = Returns 5%Z.
Proof. repeat split; reflexivity. Qed.

Example ints_of_signed_file :
  ints_from_data_columns signed_file = Returns [[227; 364]; [-280; 7]]%Z.
Proof. reflexivity. Qed.

(** ** Ranges *)

Local Open Scope Z_scope.

Lemma range_unfold lo hi :
  Py.range lo hi =
  map (fun i => lo + Z.of_nat i) (seq 0 (Z.to_nat (hi - lo))).
Proof. reflexivity. Qed.

Lemma run_step lo k :
  map (fun i => lo + Z.of_nat i) (seq 0 (S k)) =
  lo :: map (fun i => (lo + 1) + Z.of_nat i) (seq 0 k).
Proof.
  simpl. f_equal; [lia|]. rewrite <- seq_shift, map_map.
  apply map_ext. intros i. lia.
Qed.

Lemma in_range_iff start stop p :
  in_range start stop p = true <-> start <= p <= stop.
Proof. unfold in_range. rewrite andb_true_iff, !Z.leb_le. tauto. Qed.

Lemma range_In lo hi p : In p (Py.range lo hi) <-> lo <= p < hi.
Proof.
  rewrite range_unfold, in_map_iff. split.
  - intros [i [<- Hi]]. apply in_seq in Hi. lia.
  - intros H. exists (Z.to_nat (p - lo)). split; [lia|].
    apply in_seq. lia.
Qed.

Lemma run_sorted k lo :
  StronglySorted Z.lt (map (fun i => lo + Z.of_nat i) (seq 0 k)).
Proof.
  revert lo. induction k as [|k IH]; intros lo; [constructor|].
  rewrite run_step. constructor; [apply IH|].
  apply Forall_forall. intros q Hq. apply in_map_iff in Hq.
  destruct Hq as [i [<- _]]. lia.
Qed.

Lemma range_sorted lo hi : StronglySorted Z.lt (Py.range lo hi).
Proof. apply run_sorted. Qed.

Lemma range_length lo hi : length (Py.range lo hi) = Z.to_nat (hi - lo).
Proof. rewrite range_unfold, length_map, length_seq. reflexivity. Qed.


Lemma sorted_NoDup (l : list Z) : StronglySorted Z.lt l -> NoDup l.
Proof.
  induction 1 as [|x l _ IH Hx]; constructor; [|exact IH].
  intros Hin. rewrite Forall_forall in Hx. specialize (Hx _ Hin). lia.
Qed.

(** The number of pixels of a run that fall in a range. *)
Lemma run_in_range_count start stop k lo :
  length (filter (in_range start stop)
                 (map (fun i => lo + Z.of_nat i) (seq 0 k))) =
  Z.to_nat (Z.min stop (lo + Z.of_nat k - 1) - Z.max start lo + 1).
Proof.
  revert lo. induction k as [|k IH]; intros lo.
  - simpl. lia.
  - rewrite run_step. simpl filter.
    destruct (in_range start stop lo) eqn:E.
    + apply in_range_iff in E. simpl length. rewrite IH. lia.
    + rewrite IH.
      assert (H : ~ (start <= lo <= stop))
        by (rewrite <- in_range_iff, E; discriminate).
      lia.
Qed.

(** ** Dictionaries *)

Lemma set_fresh (V : Type) (k : Z) (v : V) (d : Dict.t V) :
  ~ In k (Dict.keys d) -> Dict.set k v d = d ++ [(k, v)].
Proof.
  induction d as [|[k' v'] d IH]; simpl; intros Hk; [reflexivity|].
  destruct (Z.eqb_spec k' k) as [->|_]; [tauto|].
  rewrite IH by tauto. reflexivity.
Qed.

Lemma of_pairs_from (V : Type) (l acc : list (Z * V)) :
  NoDup (map fst (acc ++ l)) ->
  fold_left (fun d kv => Dict.set (fst kv) (snd kv) d) l acc = acc ++ l.
Proof.
  revert acc. induction l as [|[k v] l IH]; intros acc Hnd; simpl.
  - rewrite app_nil_r. reflexivity.
  - assert (Hfresh : ~ In k (Dict.keys acc)).
    { unfold Dict.keys. rewrite map_app in Hnd. simpl in Hnd.
      apply NoDup_remove_2 in Hnd. intros Hin. apply Hnd.
      apply in_or_app. left. exact Hin. }
    rewrite set_fresh by exact Hfresh.
    rewrite IH; rewrite <- app_assoc; [reflexivity | exact Hnd].
Qed.

(** A list of pairs with distinct keys is its own dictionary. *)
Lemma of_pairs_distinct (V : Type) (l : list (Z * V)) :
  NoDup (map fst l) -> Dict.of_pairs l = l.
Proof. intros H. unfold Dict.of_pairs. rewrite of_pairs_from; auto. Qed.

Lemma combine_keys (A B : Type) (ks : list A) (vs : list B) :
  map fst (combine ks vs) = firstn (length vs) ks.
Proof.
  revert vs. induction ks as [|k ks IH]; intros [|v vs]; simpl;
    [reflexivity | reflexivity | reflexivity | f_equal; apply IH].
Qed.

(** ** Frames *)

Lemma firstn_seq (n s len : nat) :
  firstn n (seq s len) = seq s (Nat.min n len).
Proof.
  revert s len. induction n as [|n IH]; intros s [|len]; simpl;
    [reflexivity | reflexivity | reflexivity | f_equal; apply IH].
Qed.

Lemma firstn_range (m : nat) lo hi :
  firstn m (Py.range lo hi) =
  Py.range lo (lo + Z.of_nat (Nat.min m (Z.to_nat (hi - lo)))).
Proof.
  rewrite !range_unfold, firstn_map, firstn_seq.
  f_equal. f_equal. lia.
Qed.

Lemma frame_size_nonneg reply : 0 <= frame_size reply.
Proof. unfold frame_size. lia. Qed.

(** The keys of [frame] are distinct, so the dictionary holds the zipped
    pairs as they come. *)
Lemma frame_of_pairs reply :
  frame_of reply =
  combine (Py.range 1 (num_pixels reply + 1)) (pixels reply).
Proof.
  unfold frame_of, Py.zip. apply of_pairs_distinct.
  rewrite combine_keys, firstn_range.
  apply sorted_NoDup, range_sorted.
Qed.

(** Iterating [frame] meets the pixels 1, 2, ... up to the frame's size. *)
Lemma frame_keys reply :
  Dict.keys (frame_of reply) = Py.range 1 (1 + frame_size reply).
Proof.
  rewrite frame_of_pairs. unfold Dict.keys.
  rewrite combine_keys, firstn_range. f_equal.
  unfold frame_size. lia.
Qed.

Lemma get_run (vs : list Z) (k : nat) (lo p : Z) :
  lo <= p < lo + Z.of_nat (Nat.min k (length vs)) ->
  Dict.get p (combine (map (fun i => lo + Z.of_nat i) (seq 0 k)) vs) =
  Returns (nth (Z.to_nat (p - lo)) vs 0).
Proof.
  revert lo vs. induction k as [|k IH]; intros lo vs H.
  - simpl in H. lia.
  - destruct vs as [|v vs]; [simpl in H; lia|].
    rewrite run_step. simpl combine. simpl Dict.get.
    destruct (Z.eqb_spec lo p) as [->|Hne].
    + replace (p - p) with 0 by lia. reflexivity.
    + rewrite IH by (simpl in H; lia).
      replace (Z.to_nat (p - lo)) with (S (Z.to_nat (p - (lo + 1)))) by lia.
      reflexivity.
Qed.

Lemma frame_get reply p :
  In p (Dict.keys (frame_of reply)) ->
  Dict.get p (frame_of reply) = Returns (count_at reply p).
Proof.
  rewrite frame_keys, range_In. intros H.
  rewrite frame_of_pairs, range_unfold. unfold count_at.
  apply get_run. unfold frame_size in H. lia.
Qed.

Lemma logged_pixels_In start stop reply p :
  In p (logged_pixels start stop (frame_of reply)) <->
  In p (Dict.keys (frame_of reply)) /\ start <= p <= stop.
Proof. unfold logged_pixels. rewrite filter_In, in_range_iff. tauto. Qed.

Lemma frame_fields_values start stop reply :
  frame_fields start stop reply =
  Returns (map Py.str (frame_values start stop reply)).
Proof.
  unfold frame_fields, frame_values.
  rewrite (@comprehension_ext_in _ _ _
             (fun p => Returns (Py.str (count_at reply p)))).
  - rewrite comprehension_total, map_map. reflexivity.
  - intros p Hp. apply logged_pixels_In in Hp.
    rewrite frame_get by tauto. reflexivity.
Qed.

Lemma frame_line_values start stop reply :
  frame_line start stop reply =
  Returns (line_of (map Py.str (frame_values start stop reply))).
Proof. unfold frame_line. rewrite frame_fields_values. reflexivity. Qed.


(** How many counts a frame contributes. *)
Lemma frame_values_length start stop reply :
  length (frame_values start stop reply) =
  Z.to_nat (Z.min stop (frame_size reply) - Z.max start 1 + 1).
Proof.
  unfold frame_values, logged_pixels.
  rewrite length_map, frame_keys, range_unfold, run_in_range_count.
  pose proof (frame_size_nonneg reply). f_equal. lia.
Qed.

(** ** Lines of the log *)

Lemma uint_plain d :
  Forall plain (T (DecimalString.NilEmpty.string_of_uint d)).
Proof.
  induction d; simpl; constructor; try exact IHd;
    split; discriminate.
Qed.

Lemma str_plain z : Forall plain (Py.str z).
Proof.
  unfold Py.str, DecimalString.NilZero.string_of_int.
  destruct (Z.to_int z) as [d|d];
    [|constructor; [split; discriminate|]];
    unfold DecimalString.NilZero.string_of_uint;
    destruct d; try apply uint_plain;
    (constructor; [split; discriminate | constructor]).
Qed.

Lemma str_not_nil z : Py.str z <> [].
Proof.
  unfold Py.str, DecimalString.NilZero.string_of_int.
  destruct (Z.to_int z) as [d|d]; [|discriminate].
  destruct d; discriminate.
Qed.

Lemma split_no_sep sep (f : text) :
  Forall (fun a => a <> sep) f -> Str.split sep f = [f].
Proof.
  induction 1 as [|a f Ha _ IH]; simpl; [reflexivity|].
  destruct (Ascii.eqb_spec a sep); [contradiction|].
  rewrite IH. reflexivity.
Qed.

Lemma split_app_sep sep (f rest : text) :
  Forall (fun a => a <> sep) f ->
  Str.split sep (f ++ sep :: rest) = f :: Str.split sep rest.
Proof.
  induction 1 as [|a f Ha _ IH]; simpl.
  - rewrite Ascii.eqb_refl. reflexivity.
  - destruct (Ascii.eqb_spec a sep); [contradiction|].
    rewrite IH. reflexivity.
Qed.

Lemma split_join sep (fields : list text) :
  fields <> [] -> Forall (Forall (fun a => a <> sep)) fields ->
  Str.split sep (Str.join [sep] fields) = fields.
Proof.
  intros Hne H. induction H as [|f fields Hf Hrest IH]; [congruence|].
  destruct fields as [|g gs].
  - simpl. apply split_no_sep, Hf.
  - rewrite join_cons_cons.
    change (f ++ [sep] ++ Str.join [sep] (g :: gs))
      with (f ++ sep :: Str.join [sep] (g :: gs)).
    rewrite split_app_sep by exact Hf.
    rewrite IH by discriminate. reflexivity.
Qed.

Lemma join_chars (P : ascii -> Prop) sep (fields : list text) :
  P sep -> Forall (Forall P) fields -> Forall P (Str.join [sep] fields).
Proof.
  intros Hsep H. induction H as [|f fields Hf _ IH]; [constructor|].
  destruct fields as [|g gs]; [exact Hf|].
  rewrite join_cons_cons. apply Forall_app. split; [exact Hf|].
  constructor; assumption.
Qed.

Lemma join_not_nil sep (f : text) (fields : list text) :
  f <> [] -> Str.join sep (f :: fields) <> [].
Proof.
  intros Hf. destruct fields as [|g gs]; [exact Hf|].
  rewrite join_cons_cons. destruct f; [congruence | discriminate].
Qed.

Lemma lstrip_all p (s : text) :
  Forall (fun a => p a = true) s -> Str.lstrip p s = [].
Proof.
  intros H. rewrite <- (app_nil_r s). rewrite lstrip_app by exact H.
  reflexivity.
Qed.

(** Stripping the newline of a line that has no other one. *)
Lemma strip_newline (s : text) :
  Forall (fun a => a <> NL) s ->
  Str.strip (Ascii.eqb NL) (s ++ [NL]) = s.
Proof.
  intros H.
  assert (Hnl : Forall (fun a => Ascii.eqb NL a = true) [NL])
    by (repeat constructor).
  assert (Hkeep : forall a, a <> NL -> Ascii.eqb NL a = false).
  { intros a Ha. destruct (Ascii.eqb_spec NL a); congruence. }
  destruct s as [|a r] eqn:Es.
  - reflexivity.
  - rewrite <- Es in *. assert (Hne : s <> []) by (subst; discriminate).
    destruct (exists_last Hne) as [r' [b Eb]].
    rewrite Forall_forall in H.
    apply (@strip_padding (Ascii.eqb NL) [] [NL] r a b s);
      [ constructor | exact Hnl | exact Es
      | apply Hkeep, H; subst; left; reflexivity
      | exists r'; exact Eb
      | apply Hkeep, H; rewrite Eb; apply in_or_app; right; left; reflexivity ].
Qed.

Lemma plain_fields_no (c : ascii) (fields : list text) :
  (forall a, plain a -> a <> c) ->
  Forall (Forall plain) fields -> Forall (Forall (fun a => a <> c)) fields.
Proof.
  intros Hc H. eapply Forall_impl; [|exact H].
  intros f Hf. eapply Forall_impl; [|exact Hf]. exact Hc.
Qed.

(** A line built from fields without comma and newline, none of them empty,
    has as many fields as were joined. *)
Lemma field_count_line_of (fields : list text) :
  Forall (Forall plain) fields -> Forall (fun f => f <> []) fields ->
  field_count (line_of fields) = length fields.
Proof.
  intros Hplain Hne. unfold field_count, line_of.
  rewrite strip_newline
    by (apply join_chars; [discriminate|];
        apply plain_fields_no; [intros x [_ Hx]; exact Hx | exact Hplain]).
  destruct fields as [|f fields]; [reflexivity|].
  assert (Hsplit : Str.split COMMA (Str.join [COMMA] (f :: fields)) =
                   f :: fields).
  { apply split_join; [discriminate|].
    apply plain_fields_no; [intros x [Hx _]; exact Hx | exact Hplain]. }
  assert (Hj : Str.join [COMMA] (f :: fields) <> [])
    by (apply join_not_nil; inversion Hne; assumption).
  destruct (Str.join [COMMA] (f :: fields)) as [|c s] eqn:E; [congruence|].
  rewrite Hsplit. reflexivity.
Qed.

Lemma field_count_numbers (vals : list Z) :
  field_count (line_of (map Py.str vals)) = length vals.
Proof.
  rewrite field_count_line_of, length_map; [reflexivity | |];
    apply Forall_forall; intros f Hf; apply in_map_iff in Hf;
    destruct Hf as [z [<- _]]; [apply str_plain | apply str_not_nil].
Qed.

(** Reading back a file that begins with a complete line. *)
Lemma readlines_line (s rest : text) :
  Forall (fun a => a <> NL) s ->
  readlines ((s ++ [NL]) ++ rest) = (s ++ [NL]) :: readlines rest.
Proof.
  induction 1 as [|a s Ha _ IH]; simpl.
  - reflexivity.
  - destruct (Ascii.eqb_spec a NL); [contradiction|].
    simpl in IH. rewrite IH. reflexivity.
Qed.

Lemma numbers_line_no_newline (vals : list Z) :
  Forall (fun a => a <> NL) (Str.join [COMMA] (map Py.str vals)).
Proof.
  apply join_chars; [discriminate|].
  apply Forall_forall. intros f Hf. apply in_map_iff in Hf.
  destruct Hf as [z [<- _]].
  eapply Forall_impl; [|apply str_plain]. intros a [_ Ha]; exact Ha.
Qed.

Lemma readlines_numbers (lines : list (list Z)) :
  readlines (concat (map (fun vals => line_of (map Py.str vals)) lines)) =
  map (fun vals => line_of (map Py.str vals)) lines.
Proof.
  induction lines as [|vals lines IH]; [reflexivity|].
  simpl concat. simpl map. unfold line_of at 1.
  rewrite readlines_line by apply numbers_line_no_newline.
  rewrite IH. reflexivity.
Qed.

(** ** The session *)

Lemma datalog_loop_appends start stop (replies : list Reply) (df : text) :
  datalog_loop start stop replies df =
  (df ++ concat (map (fun vals => line_of (map Py.str vals))
                     (map (frame_values start stop) replies)),
   Returns tt).
Proof.
  revert df. induction replies as [|reply replies IH]; intros df; simpl.
  - rewrite app_nil_r. reflexivity.
  - rewrite frame_line_values, IH, <- app_assoc. reflexivity.
Qed.

(** The log of a session whose map file reads well: the heading, then one
    line per capture, and the session ends without an error. *)
Lemma session_log (n : nat) (mapfile : text) (kit : nat -> Reply)
  (datalog : text) (m : MapInfo) :
  read_map mapfile = Returns m ->
  readlines (fst (session n mapfile kit datalog)) =
  heading (wav m)
  :: map (fun i => line_of (map Py.str
                     (frame_values (start_pixel m) (stop_pixel m) (kit i))))
         (seq 0 n)
  /\ snd (session n mapfile kit datalog) = Returns tt.
Proof.
  intros Hm. unfold session. rewrite Hm, datalog_loop_appends.
  split; [|reflexivity]. simpl fst. unfold heading, line_of at 1.
  rewrite readlines_line by apply numbers_line_no_newline.
  rewrite readlines_numbers, !map_map. reflexivity.
Qed.

Lemma comprehension_inv (A B : Type) (f : A -> outcome B) (xs : list A)
  (ys : list B) :
  comprehension f xs = Returns ys ->
  Forall2 (fun x y => f x = Returns y) xs ys.
Proof.
  revert ys. induction xs as [|x xs IH]; simpl; intros ys H.
  - inversion H. constructor.
  - destruct (f x) as [y|] eqn:Ey; simpl in H; [|discriminate].
    destruct (comprehension f xs) as [ys'|]; simpl in H; [|discriminate].
    inversion H; subst. constructor; [exact Ey | apply IH; reflexivity].
Qed.

Lemma comprehension_length (A B : Type) (f : A -> outcome B) (xs : list A)
  (ys : list B) :
  comprehension f xs = Returns ys -> length ys = length xs.
Proof.
  intros H. apply comprehension_inv in H.
  symmetry. eapply Forall2_length. exact H.
Qed.

(** The integer columns have one entry per surviving row. *)
Lemma int_columns_length (contents : text) (cols : list (list Z)) :
  ints_from_data_columns contents = Returns cols ->
  Forall (fun col => length col = length (data_rows contents)) cols.
Proof.
  unfold ints_from_data_columns, strings_from_data_columns. simpl bind.
  intros H. apply comprehension_inv in H.
  pose proof (zip_star_column_length [] (data_rows contents)) as Hlen.
  induction H as [|scol col scols cols Hcol _ IH]; [constructor|].
  inversion Hlen; subst. constructor; [|apply IH; assumption].
  apply comprehension_length in Hcol. congruence.
Qed.

Lemma subscript_first (A : Type) (l : list A) (x : A) :
  Py.subscript l 0 = Returns x -> exists rest, l = x :: rest.
Proof.
  unfold Py.subscript. simpl. destruct l as [|y l]; simpl; [discriminate|].
  intros H. inversion H. exists l. reflexivity.
Qed.

Lemma subscript_last (A : Type) (l : list A) (x : A) :
  Py.subscript l (-1) = Returns x -> exists init, l = init ++ [x].
Proof.
  unfold Py.subscript. change (-1 <? 0) with true. cbv iota.
  destruct (Z.ltb_spec (Z.of_nat (length l) + -1) 0) as [|Hj]; [discriminate|].
  assert (Hne : l <> []) by (intros ->; simpl in Hj; lia).
  destruct (exists_last Hne) as [init [b ->]].
  rewrite length_app. simpl length.
  replace (Z.to_nat (Z.of_nat (length init + 1) + -1)) with (length init)
    by lia.
  rewrite nth_error_app2 by lia. rewrite Nat.sub_diag. simpl.
  intros H. inversion H. exists init. reflexivity.
Qed.

(** What a successful [read_map] has read. *)
Lemma read_map_inv (mapfile : text) (m : MapInfo) :
  read_map mapfile = Returns m ->
  ints_from_data_columns mapfile = Returns [pix m; wav m] /\
  Py.subscript (pix m) 0 = Returns (start_pixel m) /\
  Py.subscript (pix m) (-1) = Returns (stop_pixel m).
Proof.
  unfold read_map.
  destruct (ints_from_data_columns mapfile) as [cols|]; simpl;
    [|discriminate].
  destruct cols as [|a [|b [|c cols]]]; simpl; try discriminate.
  destruct (Py.subscript a 0) as [start|] eqn:E0; simpl; [|discriminate].
  destruct (Py.subscript a (-1)) as [stop|] eqn:E1; simpl; [|discriminate].
  destruct (Dict.get start _); simpl; [|discriminate].
  destruct (Dict.get stop _); simpl; [|discriminate].
  intros H. inversion H; subst m. simpl. auto.
Qed.

Lemma read_map_lengths (mapfile : text) (m : MapInfo) :
  read_map mapfile = Returns m -> length (wav m) = length (pix m).
Proof.
  intros H. apply read_map_inv in H. destruct H as [H _].
  apply int_columns_length in H.
  inversion H as [|? ? Hp Hrest]; subst.
  inversion Hrest; subst. congruence.
Qed.

(** ** The frame logger *)


Lemma first_entry (A : Type) (l rest rest' : list A) (x y : A) :
  l = x :: rest -> l = y :: rest' -> x = y.
Proof. intros -> H. inversion H. reflexivity. Qed.

Lemma last_entry (A : Type) (l init init' : list A) (x y : A) :
  l = init ++ [x] -> l = init' ++ [y] -> x = y.
Proof. intros -> H. apply app_inj_tail in H. tauto. Qed.

Lemma frame_values_empty start stop reply :
  stop < start -> frame_values start stop reply = [].
Proof.
  intros H. apply length_zero_iff_nil. rewrite frame_values_length.
  pose proof (frame_size_nonneg reply). lia.
Qed.

(** C4: for every map file whose pixel column begins with an entry greater
    than its last entry, no frame contributes a count: every data line of
    every session is empty, whatever the frames hold. *)
Theorem reversed_range_logs_no_count (n : nat) (mapfile : text)
  (kit : nat -> Reply) (datalog : text) (m : MapInfo)
  (first last : Z) (rest init : list Z) :
  read_map mapfile = Returns m ->
  pix m = first :: rest -> pix m = init ++ [last] -> last < first ->
  (forall reply,
     frame_fields (start_pixel m) (stop_pixel m) reply = Returns []) /\
  readlines (fst (session n mapfile kit datalog)) =
    heading (wav m) :: repeat [NL] n /\
  field_count [NL] = 0%nat.
Proof.
  intros Hm Hfirst Hlast Hlt.
  destruct (@read_map_inv mapfile m Hm) as [_ [H0 H1]].
  destruct (@subscript_first _ _ _ H0) as [rest' E0].
  destruct (@subscript_last _ _ _ H1) as [init' E1].
  pose proof (@first_entry _ _ _ _ _ _ E0 Hfirst) as Es.
  pose proof (@last_entry _ _ _ _ _ _ E1 Hlast) as Et.
  assert (Hrev : stop_pixel m < start_pixel m) by lia.
  split; [|split; [|reflexivity]].
  - intros reply. rewrite frame_fields_values, frame_values_empty by exact Hrev.
    reflexivity.
  - destruct (@session_log n mapfile kit datalog m Hm) as [-> _]. f_equal.
    rewrite (map_ext _ (fun _ => [NL])).
    + rewrite map_const, length_seq. reflexivity.
    + intros i. rewrite frame_values_empty by exact Hrev. reflexivity.
Qed.

Lemma reversed_range_logs_no_count_witness :
  (forall reply,
     frame_fields (start_pixel reversed_map) (stop_pixel reversed_map) reply
     = Returns []) /\
  readlines (fst (session 2 reversed_file (fun _ => frame5) [])) =
    heading (wav reversed_map) :: repeat [NL] 2 /\
  field_count [NL] = 0%nat.
Proof.
  apply (@reversed_range_logs_no_count 2 reversed_file (fun _ => frame5) []
           reversed_map 5 1 [1] [5]).
  - reflexivity.
  - reflexivity.
  - reflexivity.
  - lia.
Defined.



(** C2, as the code has it: in every session whose map file has one data
    row per pixel of the range (stop - start + 1 rows), whose range starts
    at pixel 1 or later, and whose frames all declare and deliver at least
    [stop] pixels, every data line of the log has as many fields as the
    heading, and that number is stop - start + 1. *)
Theorem full_coverage_lines_match_heading (n : nat) (mapfile : text)
  (kit : nat -> Reply) (datalog : text) (m : MapInfo) :
  read_map mapfile = Returns m ->
  Z.of_nat (length (pix m)) = stop_pixel m - start_pixel m + 1 ->
  1 <= start_pixel m ->
  (forall i, (i < n)%nat ->
     stop_pixel m <= num_pixels (kit i) /\
     stop_pixel m <= Z.of_nat (length (pixels (kit i)))) ->
  exists header lines,
    readlines (fst (session n mapfile kit datalog)) = header :: lines /\
    length lines = n /\
    Z.of_nat (field_count header) = stop_pixel m - start_pixel m + 1 /\
    Forall (fun line => field_count line = field_count header) lines.
Proof.
  intros Hm Hrows Hstart Hframes.
  destruct (@session_log n mapfile kit datalog m Hm) as [Hlog _].
  pose proof (@read_map_lengths mapfile m Hm) as Hwav.
  eexists. eexists. split; [exact Hlog|].
  assert (Hhead : field_count (heading (wav m)) = length (pix m)).
  { unfold heading. rewrite field_count_numbers. exact Hwav. }
  split; [rewrite length_map, length_seq; reflexivity|].
  split; [rewrite Hhead; exact Hrows|].
  apply Forall_forall. intros line Hline.
  apply in_map_iff in Hline. destruct Hline as [i [<- Hi]].
  apply in_seq in Hi. destruct (Hframes i ltac:(lia)) as [Hn Hp].
  rewrite field_count_numbers, frame_values_length, Hhead.
  unfold frame_size. lia.
Qed.

Lemma full_coverage_lines_match_heading_witness :
  exists header lines,
    readlines (fst (session 2 dense_file (fun _ => frame5) [])) =
      header :: lines /\
    length lines = 2%nat /\
    Z.of_nat (field_count header) =
      stop_pixel dense_map - start_pixel dense_map + 1 /\
    Forall (fun line => field_count line = field_count header) lines.
Proof.
  apply (@full_coverage_lines_match_heading 2 dense_file (fun _ => frame5) []
           dense_map).
  - reflexivity.
  - reflexivity.
  - simpl. lia.
  - intros i _. simpl. lia.
Defined.

(** C2, as stated, fails: the map file with the rows (1, 10) and (3, 30)
    gives the range 1..3 of three pixels and a heading of two fields, and a
    frame of three pixels is logged as a line of three fields. *)
Lemma sparse_map_lines_differ_from_heading :
  exists m,
    read_map sparse_file = Returns m /\
    start_pixel m = 1 /\ stop_pixel m = 3 /\
    readlines (fst (session 1 sparse_file (fun _ => frame3) [])) =
      [T "10,30" ++ [NL]; T "7,8,9" ++ [NL]] /\
    field_count (T "10,30" ++ [NL]) = 2%nat /\
    field_count (T "7,8,9" ++ [NL]) = 3%nat.
Proof.
  eexists. split; [reflexivity|]. repeat split; reflexivity.
Qed.

(** C5, as the code has it: against a range with start <= stop, a frame
    that declares fewer than [stop] pixels, delivers all it declares, and
    reaches at least the pixel before the first one logged
    (max(start, 1) - 1 <= num_pixels) gives a line shorter than the line of
    a frame that covers the range, and shorter by exactly
    stop - num_pixels fields. *)
Theorem short_frame_line_is_shorter (start stop : Z) (reply full : Reply) :
  start <= stop ->
  num_pixels reply < stop ->
  Z.max start 1 - 1 <= num_pixels reply ->
  num_pixels reply <= Z.of_nat (length (pixels reply)) ->
  stop <= num_pixels full ->
  stop <= Z.of_nat (length (pixels full)) ->
  exists line full_line,
    frame_line start stop reply = Returns line /\
    frame_line start stop full = Returns full_line /\
    (field_count line < field_count full_line)%nat /\
    Z.of_nat (field_count full_line) - Z.of_nat (field_count line) =
      stop - num_pixels reply.
Proof.
  intros Hrange Hshort Hreach Hdeliver Hfull Hfull'.
  eexists. eexists.
  split; [apply frame_line_values|]. split; [apply frame_line_values|].
  rewrite !field_count_numbers, !frame_values_length.
  unfold frame_size. lia.
Qed.

Lemma short_frame_line_is_shorter_witness :
  exists line full_line,
    frame_line 2 5 frame3 = Returns line /\
    frame_line 2 5 frame5 = Returns full_line /\
    (field_count line < field_count full_line)%nat /\
    Z.of_nat (field_count full_line) - Z.of_nat (field_count line) =
      5 - num_pixels frame3.
Proof.
  apply (@short_frame_line_is_shorter 2 5 frame3 frame5); simpl; lia.
Defined.

(** C5, as stated, fails: against the range 3..5 a frame of one pixel gives
    an empty line, a frame of five pixels gives three fields, and the
    difference is 3, not stop - num_pixels = 4. *)
Lemma short_frame_discrepancy_differs :
  3 <= 5 /\ num_pixels frame1 < 5 /\
  frame_line 3 5 frame1 = Returns [NL] /\
  frame_line 3 5 frame5 = Returns (T "13,14,15" ++ [NL]) /\
  field_count [NL] = 0%nat /\
  field_count (T "13,14,15" ++ [NL]) = 3%nat /\
  3 - 0 <> 5 - num_pixels frame1.
Proof.
  repeat split; try reflexivity; try discriminate.
Qed.

(** * Further properties of the module and the script *)

(** ** How [ints_from_data_columns] fails *)

Lemma comprehension_Raises (A B : Type) (f : A -> outcome B) (xs : list A)
  (e : exn) :
  comprehension f xs = Raises e -> exists x, In x xs /\ f x = Raises e.
Proof.
  induction xs as [|x xs IH]; simpl; [discriminate|].
  destruct (f x) as [y|e'] eqn:Ex; simpl.
  - destruct (comprehension f xs) as [ys|e'']; simpl; [discriminate|].
    intros H. inversion H; subst.
    destruct (IH eq_refl) as [x' [Hin Hx']].
    exists x'. split; [right; exact Hin | exact Hx'].
  - intros H. inversion H; subst. exists x. split; [left; reflexivity|exact Ex].
Qed.

Lemma comprehension_Returns_all (A B : Type) (f : A -> outcome B)
  (xs : list A) (ys : list B) :
  comprehension f xs = Returns ys ->
  forall x, In x xs -> exists y, f x = Returns y.
Proof.
  intros H. apply comprehension_inv in H.
  induction H as [|x y xs ys Hxy _ IH]; intros x' Hin; [destruct Hin|].
  destruct Hin as [<- | Hin]; [exists y; exact Hxy | apply IH; exact Hin].
Qed.

Lemma int_raises_value_error (s : text) (e : exn) :
  Py.int s = Raises e -> e = ValueError.
Proof.
  unfold Py.int. destruct (Py.digits _); intros H; inversion H. reflexivity.
Qed.

Lemma ints_raise_value_error (contents : text) (e : exn) :
  ints_from_data_columns contents = Raises e -> e = ValueError.
Proof.
  unfold ints_from_data_columns, strings_from_data_columns. simpl bind.
  intros H. apply comprehension_Raises in H. destruct H as [col [_ H]].
  apply comprehension_Raises in H. destruct H as [f [_ H]].
  exact (int_raises_value_error _ H).
Qed.

Lemma rejected_field_raises (contents : text) (col : list text) (f : text) :
  In col (zip_star (data_rows contents)) -> In f col ->
  Py.int f = Raises ValueError ->
  ints_from_data_columns contents = Raises ValueError.
Proof.
  intros Hcol Hf Hbad.
  destruct (ints_from_data_columns contents) as [ints|e] eqn:E.
  - unfold ints_from_data_columns, strings_from_data_columns in E.
    simpl bind in E.
    destruct (comprehension_Returns_all _ _ E col Hcol) as [zs Hzs].
    destruct (comprehension_Returns_all _ _ Hzs f Hf) as [z Hz].
    congruence.
  - f_equal. exact (ints_raise_value_error _ E).
Qed.

(** X1: [ints_from_data_columns] raises exactly when [int] rejects one of
    the fields that [strings_from_data_columns] returns, and what it raises
    is then [ValueError], never another exception. *)
Theorem ints_raise_iff_a_field_is_rejected (contents : text) :
  (ints_from_data_columns contents = Raises ValueError <->
   exists col f, In col (zip_star (data_rows contents)) /\ In f col /\
                 Py.int f = Raises ValueError) /\
  (forall e, ints_from_data_columns contents = Raises e -> e = ValueError).
Proof.
  split; [|intros e; apply ints_raise_value_error].
  unfold ints_from_data_columns, strings_from_data_columns. simpl bind.
  split.
  - intros H. apply comprehension_Raises in H. destruct H as [col [Hcol H]].
    apply comprehension_Raises in H. destruct H as [f [Hf H]].
    exists col, f. auto.
  - intros [col [f [Hcol [Hf Hbad]]]].
    exact (rejected_field_raises contents col f Hcol Hf Hbad).
Qed.

(** X2: when [ints_from_data_columns] returns, its result has the shape of
    the result of [strings_from_data_columns]: the same number of columns,
    one entry per surviving row in each, and every entry is [int] of the
    string at the same place. *)
Theorem ints_have_the_shape_of_strings (contents : text)
  (ints : list (list Z)) :
  ints_from_data_columns contents = Returns ints ->
  exists strings,
    strings_from_data_columns contents = Returns strings /\
    length ints = length strings /\
    Forall (fun col => length col = length (data_rows contents)) ints /\
    Forall2 (Forall2 (fun s z => Py.int s = Returns z)) strings ints.
Proof.
  intros H. exists (zip_star (data_rows contents)).
  split; [reflexivity|].
  pose proof (int_columns_length contents H) as Hlen.
  unfold ints_from_data_columns, strings_from_data_columns in H.
  simpl bind in H. split; [exact (comprehension_length _ _ H)|].
  split; [exact Hlen|].
  apply comprehension_inv in H. clear Hlen.
  induction H as [|scol col scols cols Hcol _ IH]; constructor; [|exact IH].
  apply comprehension_inv. exact Hcol.
Qed.

Lemma ints_have_the_shape_of_strings_witness :
  exists strings,
    strings_from_data_columns signed_file = Returns strings /\
    length [[227; 364]; [-280; 7]] = length strings /\
    Forall (fun col => length col = length (data_rows signed_file))
           [[227; 364]; [-280; 7]] /\
    Forall2 (Forall2 (fun s z => Py.int s = Returns z)) strings
            [[227; 364]; [-280; 7]].
Proof.
  apply (@ints_have_the_shape_of_strings signed_file [[227; 364]; [-280; 7]]).
  reflexivity.
Defined.

Lemma in_column (rows : list (list text)) (j : nat) :
  (j < min_len rows)%nat ->
  In (map (fun r => nth j r []) rows) (zip_star rows).
Proof.
  intros Hj. rewrite (zip_star_positions []).
  apply in_map_iff. exists j. split; [reflexivity|]. apply in_seq. lia.
Qed.

Lemma column_positions (rows : list (list text)) (col : list text) :
  In col (zip_star rows) ->
  exists j, (j < min_len rows)%nat /\ col = map (fun r => nth j r []) rows.
Proof.
  rewrite (zip_star_positions []). intros H. apply in_map_iff in H.
  destruct H as [j [<- Hj]]. apply in_seq in Hj.
  exists j. split; [lia | reflexivity].
Qed.

(** X3: the fields that the unzip drops are never given to [int]: as soon
    as every field at a position below the shortest row's field count is
    accepted by [int], [ints_from_data_columns] returns, whatever the longer
    rows hold further right. *)
Theorem dropped_fields_are_not_parsed (contents : text) :
  (forall row i, In row (data_rows contents) ->
                 (i < min_len (data_rows contents))%nat ->
                 exists z, Py.int (nth i row []) = Returns z) ->
  exists ints, ints_from_data_columns contents = Returns ints.
Proof.
  intros Hkept. unfold ints_from_data_columns, strings_from_data_columns.
  simpl bind.
  destruct (@comprehension_Forall2 _ _ (fun col => comprehension Py.int col)
              (fun _ _ => True) (zip_star (data_rows contents)))
    as [ints [E _]]; [|exists ints; exact E].
  intros col Hcol. destruct (column_positions _ _ Hcol) as [j [Hj ->]].
  destruct (@comprehension_Forall2 _ _ Py.int (fun _ _ => True)
              (map (fun r => nth j r []) (data_rows contents)))
    as [zs [Ezs _]]; [|exists zs; split; [exact Ezs | exact I]].
  intros f Hf. apply in_map_iff in Hf. destruct Hf as [row [<- Hrow]].
  destruct (Hkept row j Hrow Hj) as [z Hz]. exists z. split; [exact Hz|exact I].
Qed.

Lemma dropped_fields_are_not_parsed_witness :
  exists ints, ints_from_data_columns garbage_file = Returns ints.
Proof.
  apply (@dropped_fields_are_not_parsed garbage_file).
  intros row i Hrow Hi.
  change (min_len (data_rows garbage_file)) with 2%nat in Hi.
  cbv in Hrow. destruct Hrow as [<- | [<- | []]];
    (destruct i as [|[|i]]; [eexists; reflexivity | eexists; reflexivity | lia]).
Defined.

Example garbage_field_is_rejected_alone :
  Py.int (T "xyz") = Raises ValueError /\
  ints_from_data_columns garbage_file = Returns [[1; 3]; [10; 30]].
Proof. split; reflexivity. Qed.

(** ** Lines and fields *)

(** A line of a file ends with its only newline, or is a last line without
    one. *)
Lemma readlines_shape (contents : text) :
  Forall (fun l => exists s, line_body l s) (readlines contents).
Proof.
  induction contents as [|a rest IH]; simpl; [constructor|].
  destruct (Ascii.eqb_spec a NL) as [->|Ha].
  - constructor; [|exact IH]. exists []. split; [constructor | left; reflexivity].
  - destruct (readlines rest) as [|l ls].
    + constructor; [|constructor]. exists [a].
      split; [repeat constructor; exact Ha | right; split; [reflexivity | discriminate]].
    + inversion IH as [|? ? [s [Hs Hl]] Hls]; subst.
      constructor; [|exact Hls]. exists (a :: s).
      split; [constructor; assumption|].
      destruct Hl as [-> | [-> _]];
        [left; reflexivity | right; split; [reflexivity | discriminate]].
Qed.

Lemma lstrip_clean p (s : text) :
  Forall (fun a => p a = false) s -> Str.lstrip p s = s.
Proof. intros H. destruct H as [|a s Ha _]; simpl; [|rewrite Ha]; reflexivity. Qed.

Lemma strip_clean p (s : text) :
  Forall (fun a => p a = false) s -> Str.strip p s = s.
Proof.
  intros H. unfold Str.strip, Str.rstrip. rewrite (@lstrip_clean p s H).
  rewrite lstrip_clean by (apply Forall_rev; exact H).
  apply rev_involutive.
Qed.

Lemma not_newline_kept (s : text) :
  Forall (fun a => a <> NL) s -> Forall (fun a => Ascii.eqb NL a = false) s.
Proof.
  intros H. eapply Forall_impl; [|exact H]. intros a Ha.
  destruct (Ascii.eqb_spec NL a); congruence.
Qed.

(** Stripping the newlines of a line of a file leaves its body. *)
Lemma strip_line (l s : text) :
  line_body l s -> Str.strip (Ascii.eqb NL) l = s.
Proof.
  intros [Hs [-> | [-> _]]].
  - apply strip_newline. exact Hs.
  - apply strip_clean, not_newline_kept, Hs.
Qed.

Lemma split_fields (P : ascii -> Prop) (sep : ascii) (s : text) :
  Forall P s -> Forall (Forall P) (Str.split sep s).
Proof.
  induction 1 as [|a s Ha _ IH]; simpl; [repeat constructor|].
  destruct (Ascii.eqb a sep); [constructor; [constructor | exact IH]|].
  destruct (Str.split sep s) as [|f fs]; [repeat constructor; exact Ha|].
  inversion IH; subst. constructor; [constructor|]; assumption.
Qed.

Lemma split_fields_no_sep (sep : ascii) (s : text) :
  Forall (Forall (fun a => a <> sep)) (Str.split sep s).
Proof.
  induction s as [|a s IH]; simpl; [repeat constructor|].
  destruct (Ascii.eqb_spec a sep) as [|Ha];
    [constructor; [constructor | exact IH]|].
  destruct (Str.split sep s) as [|f fs]; [repeat constructor; exact Ha|].
  inversion IH; subst. constructor; [constructor|]; assumption.
Qed.

Lemma data_rows_clean (contents : text) :
  Forall (Forall (Forall (fun a => a <> TAB /\ a <> NL))) (data_rows contents).
Proof.
  apply Forall_forall. intros row Hrow. apply in_map_iff in Hrow.
  destruct Hrow as [line [<- Hline]]. apply filter_In in Hline.
  destruct Hline as [Hline _].
  pose proof (readlines_shape contents) as Hshape.
  rewrite Forall_forall in Hshape. destruct (Hshape _ Hline) as [s Hs].
  rewrite (strip_line Hs). destruct Hs as [Hs _].
  pose proof (split_fields_no_sep TAB s) as Hsep.
  pose proof (split_fields TAB Hs) as Hnl.
  rewrite Forall_forall in *. intros f Hf.
  specialize (Hsep f Hf). specialize (Hnl f Hf).
  rewrite Forall_forall in *. intros a Ha. split; auto.
Qed.

(** X4: no string that [strings_from_data_columns] returns holds a tab or a
    newline: the separators and the line ends of the file never reach the
    fields. *)
Theorem fields_hold_no_tab_nor_newline (contents : text) :
  exists strings,
    strings_from_data_columns contents = Returns strings /\
    Forall (Forall (Forall (fun a => a <> TAB /\ a <> NL))) strings.
Proof.
  exists (zip_star (data_rows contents)). split; [reflexivity|].
  pose proof (data_rows_clean contents) as Hrows.
  rewrite Forall_forall in *. intros col Hcol.
  rewrite Forall_forall. intros f Hf.
  destruct (column_field_in_row _ _ _ Hcol Hf) as [row [Hrow Hin]].
  specialize (Hrows row Hrow). rewrite Forall_forall in Hrows. auto.
Qed.

Lemma lstrip_keeps (P : ascii -> Prop) p (s : text) :
  Forall P s -> Forall P (Str.lstrip p s).
Proof.
  induction 1 as [|a s Ha Hs IH]; simpl; [constructor|].
  destruct (p a); [exact IH | constructor; assumption].
Qed.

Lemma strip_keeps (P : ascii -> Prop) p (s : text) :
  Forall P s -> Forall P (Str.strip p s).
Proof.
  intros H. unfold Str.strip, Str.rstrip.
  apply Forall_rev, lstrip_keeps, Forall_rev, lstrip_keeps, H.
Qed.

Lemma is_blank_no_number a :
  is_blank a = true ->
  Ascii.eqb a "-" = false /\ Ascii.eqb a "+" = false /\
  Py.isdigit a = false.
Proof.
  destruct a as [[] [] [] [] [] [] [] []]; intros H;
    first [discriminate H | repeat split; reflexivity].
Qed.

(** [int] rejects a text of blanks, whether it skips them or not. *)
Lemma int_of_blanks (blanks : text) :
  Forall (fun a => is_blank a = true) blanks ->
  Py.int blanks = Raises ValueError.
Proof.
  intros H. unfold Py.int.
  pose proof (strip_keeps Py.int_space H) as Hkept.
  destruct (Str.strip Py.int_space blanks) as [|a r]; [reflexivity|].
  inversion Hkept as [|? ? Ha _]; subst.
  destruct (is_blank_no_number _ Ha) as [-> [-> Hd]].
  simpl. rewrite Hd. reflexivity.
Qed.

Lemma is_blank_plain (a : ascii) :
  is_blank a = true -> a <> TAB /\ a <> NL /\ a <> HASH.
Proof.
  destruct a as [[] [] [] [] [] [] [] []]; intros H;
    first [discriminate H | repeat split; discriminate].
Qed.

Lemma first_column_exists (contents : text) :
  data_rows contents <> [] -> (0 < min_len (data_rows contents))%nat.
Proof.
  intros Hne. pose proof (min_len_attained Hne) as Hex.
  apply Exists_exists in Hex. destruct Hex as [row [Hrow <-]].
  pose proof (data_rows_fields contents) as Hpos.
  rewrite Forall_forall in Hpos. auto.
Qed.

(** X5: a line that holds only blanks (spaces and the like: neither a tab
    nor a newline) is not skipped as a blank line; it is a data row of one
    field, and [ints_from_data_columns] raises [ValueError] on a file that
    has such a line, with or without its newline. *)
Theorem line_of_blanks_is_a_row (contents blanks : text) :
  blanks <> [] ->
  Forall (fun a => is_blank a = true) blanks ->
  In (blanks ++ [NL]) (readlines contents) \/ In blanks (readlines contents) ->
  In [blanks] (data_rows contents) /\
  ints_from_data_columns contents = Raises ValueError.
Proof.
  intros Hne Hblank Hline.
  assert (Hplain : Forall (fun a => a <> TAB /\ a <> NL /\ a <> HASH) blanks)
    by (eapply Forall_impl; [|exact Hblank]; apply is_blank_plain).
  assert (Hnl : Forall (fun a => a <> NL) blanks)
    by (eapply Forall_impl; [|exact Hplain]; tauto).
  assert (Htab : Forall (fun a => a <> TAB) blanks)
    by (eapply Forall_impl; [|exact Hplain]; tauto).
  assert (Hrow : In [blanks] (data_rows contents)).
  { unfold data_rows. apply in_map_iff.
    destruct blanks as [|b bs] eqn:Eb; [congruence|]. rewrite <- Eb in *.
    assert (Hb : b <> TAB /\ b <> NL /\ b <> HASH)
      by (rewrite Eb in Hplain; inversion Hplain; assumption).
    assert (Hdata : forall rest, is_data_line (b :: rest) = true).
    { intros rest. unfold is_data_line. simpl.
      destruct (Ascii.eqb_spec b HASH); [tauto|].
      destruct (Ascii.eqb_spec b NL); [tauto|]. reflexivity. }
    destruct Hline as [Hline | Hline].
    - exists (blanks ++ [NL]). split.
      + rewrite strip_newline by exact Hnl. apply split_no_sep, Htab.
      + apply filter_In. split; [exact Hline|]. rewrite Eb. apply Hdata.
    - exists blanks. split.
      + rewrite strip_clean by (apply not_newline_kept, Hnl).
        apply split_no_sep, Htab.
      + apply filter_In. split; [exact Hline|]. rewrite Eb. apply Hdata. }
  split; [exact Hrow|].
  assert (Hrows : data_rows contents <> [])
    by (intros E; rewrite E in Hrow; destruct Hrow).
  apply (@rejected_field_raises contents
           (map (fun r => nth 0 r []) (data_rows contents)) blanks).
  - apply in_column, first_column_exists, Hrows.
  - apply in_map_iff. exists [blanks]. split; [reflexivity | exact Hrow].
  - apply int_of_blanks, Hblank.
Qed.

Lemma line_of_blanks_is_a_row_witness :
  In [T "  "] (data_rows spaces_file) /\
  ints_from_data_columns spaces_file = Raises ValueError.
Proof.
  apply (@line_of_blanks_is_a_row spaces_file (T "  ")).
  - discriminate.
  - repeat constructor.
  - left. right. left. reflexivity.
Defined.

(** ** Looking up a dictionary *)

Section Lookup.

Variable V : Type.

Implicit Types (d : Dict.t V) (l : list (Z * V)).

Lemma get_set_same k (v : V) d : Dict.get k (Dict.set k v d) = Returns v.
Proof.
  induction d as [|[k' v'] d IH]; simpl.
  - rewrite Z.eqb_refl. reflexivity.
  - destruct (Z.eqb_spec k' k) as [->|Hne]; simpl.
    + rewrite Z.eqb_refl. reflexivity.
    + destruct (Z.eqb_spec k' k); [contradiction | exact IH].
Qed.

Lemma get_set_other k k' (v : V) d :
  k' <> k -> Dict.get k (Dict.set k' v d) = Dict.get k d.
Proof.
  intros Hne. induction d as [|[k0 v0] d IH]; simpl.
  - destruct (Z.eqb_spec k' k); [contradiction | reflexivity].
  - destruct (Z.eqb_spec k0 k') as [->|H0]; simpl.
    + destruct (Z.eqb_spec k' k); [contradiction | reflexivity].
    + destruct (Z.eqb_spec k0 k); [reflexivity | exact IH].
Qed.

Lemma get_absent k d : ~ In k (Dict.keys d) -> Dict.get k d = Raises KeyError.
Proof.
  induction d as [|[k' v'] d IH]; simpl; intros H; [reflexivity|].
  destruct (Z.eqb_spec k' k); [tauto | apply IH; tauto].
Qed.

Lemma get_after_others k l d :
  ~ In k (map fst l) ->
  Dict.get k (fold_left (fun d kv => Dict.set (fst kv) (snd kv) d) l d) =
  Dict.get k d.
Proof.
  revert d. induction l as [|[k' v'] l IH]; intros d H; simpl; [reflexivity|].
  simpl in H. rewrite IH by tauto. apply get_set_other. tauto.
Qed.

(** The value of a key is the one of its last pair. *)
Lemma get_of_pairs_last k (v : V) l l1 l2 :
  l = l1 ++ (k, v) :: l2 -> ~ In k (map fst l2) ->
  Dict.get k (Dict.of_pairs l) = Returns v.
Proof.
  intros -> H. unfold Dict.of_pairs. rewrite fold_left_app. simpl.
  rewrite get_after_others by exact H. apply get_set_same.
Qed.

Lemma get_of_pairs_absent k l :
  ~ In k (map fst l) -> Dict.get k (Dict.of_pairs l) = Raises KeyError.
Proof.
  intros H. unfold Dict.of_pairs. rewrite get_after_others by exact H.
  reflexivity.
Qed.

Lemma last_binding k l :
  In k (map fst l) ->
  exists l1 v l2, l = l1 ++ (k, v) :: l2 /\ ~ In k (map fst l2).
Proof.
  induction l as [|[k' v'] l IH]; simpl; [tauto|]. intros H.
  destruct (in_dec Z.eq_dec k (map fst l)) as [Hin|Hout].
  - destruct (IH Hin) as [l1 [v [l2 [-> Hl2]]]].
    exists ((k', v') :: l1), v, l2. split; [reflexivity | exact Hl2].
  - destruct H as [->|H]; [|contradiction].
    exists [], v', l. split; [reflexivity | exact Hout].
Qed.

Lemma get_of_pairs_present k l :
  In k (map fst l) -> exists v, Dict.get k (Dict.of_pairs l) = Returns v.
Proof.
  intros H. destruct (last_binding _ _ H) as [l1 [v [l2 [E Hl2]]]].
  exists v. eapply get_of_pairs_last; eassumption.
Qed.

End Lookup.

(** X6: in [chr_map = dict(zip(pix, wav))] a pixel that stands in several
    rows keeps the wavelength of the last of them, and looking up a pixel
    that stands in no row raises [KeyError]. *)
Theorem chr_map_keeps_last_row (pix wav : list Z) (p : Z) :
  (forall l1 l2 w,
     Py.zip pix wav = l1 ++ (p, w) :: l2 -> ~ In p (map fst l2) ->
     Dict.get p (Dict.of_pairs (Py.zip pix wav)) = Returns w) /\
  (~ In p (map fst (Py.zip pix wav)) ->
   Dict.get p (Dict.of_pairs (Py.zip pix wav)) = Raises KeyError).
Proof.
  split.
  - intros l1 l2 w E H. eapply get_of_pairs_last; eassumption.
  - apply get_of_pairs_absent.
Qed.

Lemma chr_map_keeps_last_row_witness :
  Dict.get 5 (Dict.of_pairs (Py.zip [5; 7; 5] [50; 70; 51])) = Returns 51 /\
  Dict.get 6 (Dict.of_pairs (Py.zip [5; 7; 5] [50; 70; 51])) = Raises KeyError.
Proof.
  split.
  - apply (proj1 (chr_map_keeps_last_row [5; 7; 5] [50; 70; 51] 5)
             [(5, 50); (7, 70)] [] 51); [reflexivity | simpl; tauto].
  - apply (proj2 (chr_map_keeps_last_row [5; 7; 5] [50; 70; 51] 6)).
    simpl. lia.
Defined.

(** ** Reading the map (lines 185-199) *)

Lemma subscript_head (A : Type) (x : A) (rest : list A) :
  Py.subscript (x :: rest) 0 = Returns x.
Proof. reflexivity. Qed.

Lemma subscript_tail (A : Type) (init : list A) (x : A) :
  Py.subscript (init ++ [x]) (-1) = Returns x.
Proof.
  unfold Py.subscript. change (-1 <? 0) with true. cbv iota.
  rewrite length_app. simpl length.
  destruct (Z.ltb_spec (Z.of_nat (length init + 1) + -1) 0); [lia|].
  replace (Z.to_nat (Z.of_nat (length init + 1) + -1)) with (length init)
    by lia.
  rewrite nth_error_app2 by lia. rewrite Nat.sub_diag. reflexivity.
Qed.

Lemma ints_columns_count (contents : text) (cols : list (list Z)) :
  ints_from_data_columns contents = Returns cols ->
  length cols = min_len (data_rows contents).
Proof.
  unfold ints_from_data_columns, strings_from_data_columns. simpl bind.
  intros H. apply comprehension_length in H.
  rewrite H. apply (zip_star_length []).
Qed.

Lemma two_columns_have_entries (mapfile : text) (pix wav : list Z) :
  ints_from_data_columns mapfile = Returns [pix; wav] ->
  pix <> [] /\ length wav = length pix.
Proof.
  intros H. pose proof (ints_columns_count _ H) as Hcount.
  pose proof (int_columns_length _ H) as Hlen.
  inversion Hlen as [|? ? Hp Hrest]; subst. inversion Hrest; subst.
  split; [|congruence].
  intros ->. simpl in Hp, Hcount.
  destruct (data_rows mapfile); [discriminate Hcount | discriminate Hp].
Qed.

Lemma read_map_of_two_columns (mapfile : text) (pix wav : list Z) :
  ints_from_data_columns mapfile = Returns [pix; wav] ->
  exists start stop rest init,
    pix = start :: rest /\ pix = init ++ [stop] /\
    read_map mapfile =
    Returns {| pix := pix; wav := wav;
               start_pixel := start; stop_pixel := stop |}.
Proof.
  intros H. destruct (two_columns_have_entries _ H) as [Hne Hlen].
  destruct pix as [|start rest] eqn:Ep; [congruence|]. rewrite <- Ep in *.
  destruct (exists_last Hne) as [init [stop Elast]].
  exists start, stop, rest, init.
  split; [exact Ep|]. split; [exact Elast|].
  assert (Hkeys : map fst (Py.zip pix wav) = pix).
  { unfold Py.zip. rewrite combine_keys. apply firstn_all2. lia. }
  assert (Hget : forall k, In k pix -> exists v,
            Dict.get k (Dict.of_pairs (Py.zip pix wav)) = Returns v).
  { intros k Hk. apply get_of_pairs_present. rewrite Hkeys. exact Hk. }
  destruct (Hget start) as [v0 E0]; [rewrite Ep; left; reflexivity|].
  destruct (Hget stop) as [v1 E1];
    [rewrite Elast; apply in_or_app; right; left; reflexivity|].
  unfold read_map. rewrite H. simpl bind. simpl fst. simpl snd.
  rewrite Ep at 1. rewrite subscript_head. simpl bind.
  rewrite Elast at 1. rewrite subscript_tail. simpl bind.
  rewrite E0. simpl bind. rewrite E1. reflexivity.
Qed.

Lemma read_map_raises_value_error (mapfile : text) (e : exn) :
  read_map mapfile = Raises e -> e = ValueError.
Proof.
  intros He.
  destruct (ints_from_data_columns mapfile) as [cols|e'] eqn:E.
  - destruct cols as [|a [|b [|c cols]]];
      try (unfold read_map in He; rewrite E in He; simpl in He;
           inversion He; reflexivity).
    destruct (read_map_of_two_columns _ E) as [? [? [? [? [_ [_ E']]]]]].
    congruence.
  - unfold read_map in He. rewrite E in He. simpl in He.
    inversion He; subst. exact (ints_raise_value_error _ E).
Qed.

(** X7: the part of the script that reads the map returns exactly when
    [ints_from_data_columns] returns two columns; the subscripts [pix[0]]
    and [pix[-1]] and the two [chr_map] lookups cannot fail then, so what it
    raises is [ValueError] and nothing else. *)
Theorem read_map_fails_only_with_value_error (mapfile : text) :
  ((exists m, read_map mapfile = Returns m) <->
   (exists pix wav, ints_from_data_columns mapfile = Returns [pix; wav])) /\
  (forall e, read_map mapfile = Raises e -> e = ValueError).
Proof.
  split; [split|].
  - intros [m Hm]. exists (pix m), (wav m).
    exact (proj1 (read_map_inv mapfile Hm)).
  - intros [pix [wav H]].
    destruct (read_map_of_two_columns _ H) as [? [? [? [? [_ [_ E]]]]]].
    eexists. exact E.
  - intros e. apply read_map_raises_value_error.
Qed.

(** X8: when the shortest surviving row of the map file does not have
    exactly two fields (no row at all, a row of one field, or three and more
    fields in every row), the session stops with [ValueError] and leaves
    [datalog.txt] as it was. *)
Theorem session_needs_two_columns (n : nat) (mapfile : text)
  (kit : nat -> Reply) (datalog : text) :
  min_len (data_rows mapfile) <> 2%nat ->
  session n mapfile kit datalog = (datalog, Raises ValueError).
Proof.
  intros Hcols. unfold session.
  destruct (read_map mapfile) as [m|e] eqn:E.
  - destruct (read_map_inv mapfile E) as [H _].
    apply ints_columns_count in H. simpl in H. congruence.
  - rewrite (read_map_raises_value_error _ E). reflexivity.
Qed.

Lemma session_needs_two_columns_witness :
  session 3 wide_file (fun _ => frame5) (T "old") =
  (T "old", Raises ValueError).
Proof.
  apply (@session_needs_two_columns 3 wide_file (fun _ => frame5) (T "old")).
  discriminate.
Defined.

(** ** The whole session and the script *)

Lemma session_result (n : nat) (mapfile : text) (kit : nat -> Reply)
  (datalog : text) (m : MapInfo) :
  read_map mapfile = Returns m ->
  session n mapfile kit datalog =
  (heading (wav m)
   ++ concat (map (fun i => line_of (map Py.str
                      (frame_values (start_pixel m) (stop_pixel m) (kit i))))
                  (seq 0 n)),
   Returns tt).
Proof.
  intros Hm. unfold session. rewrite Hm, datalog_loop_appends, !map_map.
  reflexivity.
Qed.

(** X9: once the map file is read, a session cannot fail, whatever the
    frames declare and deliver: it ends without an error, the earlier
    contents of [datalog.txt] are gone, and the file holds the heading
    followed by one line per captured frame, in the order of capture. *)
Theorem session_logs_every_frame (n : nat) (mapfile : text)
  (kit : nat -> Reply) (datalog : text) (m : MapInfo) :
  read_map mapfile = Returns m ->
  session n mapfile kit datalog =
  (heading (wav m)
   ++ concat (map (fun i => line_of (map Py.str
                      (frame_values (start_pixel m) (stop_pixel m) (kit i))))
                  (seq 0 n)),
   Returns tt) /\
  length (readlines (fst (session n mapfile kit datalog))) = S n /\
  (forall other, session n mapfile kit other = session n mapfile kit datalog).
Proof.
  intros Hm. split; [apply session_result; exact Hm|]. split.
  - destruct (@session_log n mapfile kit datalog m Hm) as [-> _].
    simpl length. rewrite length_map, length_seq. reflexivity.
  - intros other. rewrite (@session_result n mapfile kit other m Hm).
    rewrite (@session_result n mapfile kit datalog m Hm). reflexivity.
Qed.

Lemma session_logs_every_frame_witness :
  session 2 dense_file (fun _ => frame1) (T "old") =
  (heading (wav dense_map)
   ++ concat (map (fun i : nat => line_of (map Py.str
                      (frame_values (start_pixel dense_map)
                                    (stop_pixel dense_map) frame1)))
                  (seq 0 2)),
   Returns tt) /\
  length (readlines (fst (session 2 dense_file (fun _ => frame1) (T "old"))))
  = 3%nat /\
  (forall other, session 2 dense_file (fun _ => frame1) other =
                 session 2 dense_file (fun _ => frame1) (T "old")).
Proof.
  apply (@session_logs_every_frame 2 dense_file (fun _ => frame1) (T "old")
           dense_map).
  reflexivity.
Defined.

(** X10: the script logs three frames and then looks up pixel 273 of a
    fourth one.  With the map file read, the log is complete in every case;
    the script ends well when the fourth frame has 273 pixels or more, and
    with [KeyError] when it has fewer. *)
Theorem main_ends_at_pixel_273 (mapfile : text) (kit : nat -> Reply)
  (datalog : text) (m : MapInfo) :
  read_map mapfile = Returns m ->
  fst (main mapfile kit datalog) = fst (session 3 mapfile kit datalog) /\
  length (readlines (fst (main mapfile kit datalog))) = 4%nat /\
  (273 <= frame_size (kit 3%nat) ->
   snd (main mapfile kit datalog) = Returns tt) /\
  (frame_size (kit 3%nat) < 273 ->
   snd (main mapfile kit datalog) = Raises KeyError).
Proof.
  intros Hm.
  pose proof (@session_log 3 mapfile kit datalog m Hm) as [Hlog _].
  unfold main. rewrite (@session_result 3 mapfile kit datalog m Hm) in *.
  simpl fst in *. simpl snd.
  split; [reflexivity|]. split; [rewrite Hlog; reflexivity|]. split.
  - intros Hsize. rewrite frame_get; [reflexivity|].
    rewrite frame_keys, range_In. lia.
  - intros Hsize. rewrite get_absent; [reflexivity|].
    rewrite frame_keys, range_In. lia.
Qed.

Lemma main_ends_at_pixel_273_witness :
  fst (main dense_file (fun _ => frame273) []) =
  fst (session 3 dense_file (fun _ => frame273) []) /\
  length (readlines (fst (main dense_file (fun _ => frame273) []))) = 4%nat /\
  (273 <= frame_size frame273 ->
   snd (main dense_file (fun _ => frame273) []) = Returns tt) /\
  (frame_size frame273 < 273 ->
   snd (main dense_file (fun _ => frame273) []) = Raises KeyError).
Proof.
  apply (@main_ends_at_pixel_273 dense_file (fun _ => frame273) [] dense_map).
  reflexivity.
Defined.

(** ** What a data line holds *)

Lemma run_nil lo k :
  Z.of_nat k <= 0 -> map (fun i => lo + Z.of_nat i) (seq 0 k) = [].
Proof. intros H. replace k with 0%nat by lia. reflexivity. Qed.

(** The pixels of a run that pass the filter form a run again. *)
Lemma filter_run start stop k lo :
  filter (in_range start stop) (map (fun i => lo + Z.of_nat i) (seq 0 k)) =
  map (fun i => Z.max start lo + Z.of_nat i)
      (seq 0 (Z.to_nat (Z.min stop (lo + Z.of_nat k - 1) - Z.max start lo + 1))).
Proof.
  revert lo. induction k as [|k IH]; intros lo.
  - simpl filter. symmetry. apply run_nil. lia.
  - rewrite run_step. simpl filter.
    destruct (in_range start stop lo) eqn:E.
    + apply in_range_iff in E. rewrite IH.
      replace (Z.to_nat (Z.min stop (lo + Z.of_nat (S k) - 1)
                         - Z.max start lo + 1))
        with (S (Z.to_nat (Z.min stop (lo + 1 + Z.of_nat k - 1)
                           - Z.max start (lo + 1) + 1))) by lia.
      rewrite run_step.
      replace (Z.max start lo) with lo by lia.
      replace (Z.max start (lo + 1)) with (lo + 1) by lia. reflexivity.
    + assert (H : ~ (start <= lo <= stop))
        by (rewrite <- in_range_iff, E; discriminate).
      rewrite IH.
      destruct (Z.lt_ge_cases lo start) as [Hlo|Hlo].
      * replace (Z.max start (lo + 1)) with (Z.max start lo) by lia.
        f_equal. f_equal. lia.
      * rewrite !run_nil by lia. reflexivity.
Qed.

Lemma skipn_cons_nth (A : Type) (d : A) (l : list A) (n : nat) :
  (n < length l)%nat -> skipn n l = nth n l d :: skipn (S n) l.
Proof.
  revert l. induction n as [|n IH]; intros [|x l] H; simpl in H; try lia.
  - reflexivity.
  - simpl. rewrite (IH l) by lia. reflexivity.
Qed.

Lemma counts_of_run (l : list Z) (k : nat) (lo : Z) :
  1 <= lo ->
  ((0 < k)%nat -> lo - 1 + Z.of_nat k <= Z.of_nat (length l)) ->
  map (fun p => nth (Z.to_nat (p - 1)) l 0)
      (map (fun i => lo + Z.of_nat i) (seq 0 k)) =
  firstn k (skipn (Z.to_nat (lo - 1)) l).
Proof.
  revert lo. induction k as [|k IH]; intros lo Hlo Hk; [reflexivity|].
  specialize (Hk ltac:(lia)).
  rewrite run_step. simpl map at 1.
  rewrite (@skipn_cons_nth _ 0 l (Z.to_nat (lo - 1))) by lia.
  rewrite firstn_cons. f_equal. rewrite IH by lia.
  replace (Z.to_nat (lo + 1 - 1)) with (S (Z.to_nat (lo - 1))) by lia.
  reflexivity.
Qed.

(** X11: the pixels a frame contributes are the whole numbers from
    max(start, 1) to min(stop, size), where size is the number of pixels
    the frame both declares and delivers; the counts written are that slice
    of the frame's counts, [pixels[max(start,1)-1 : min(stop,size)]]. *)
Theorem logged_counts_are_a_slice (start stop : Z) (reply : Reply) :
  logged_pixels start stop (frame_of reply) =
    Py.range (Z.max start 1) (Z.min stop (frame_size reply) + 1) /\
  frame_values start stop reply =
    firstn (Z.to_nat (Z.min stop (frame_size reply) + 1 - Z.max start 1))
           (skipn (Z.to_nat (Z.max start 1 - 1)) (pixels reply)) /\
  frame_line start stop reply =
    Returns (line_of (map Py.str
      (firstn (Z.to_nat (Z.min stop (frame_size reply) + 1 - Z.max start 1))
              (skipn (Z.to_nat (Z.max start 1 - 1)) (pixels reply))))).
Proof.
  pose proof (frame_size_nonneg reply) as Hsize.
  assert (Hpix : logged_pixels start stop (frame_of reply) =
                 Py.range (Z.max start 1) (Z.min stop (frame_size reply) + 1)).
  { unfold logged_pixels. rewrite frame_keys, !range_unfold, filter_run.
    f_equal. f_equal. f_equal. lia. }
  assert (Hvals : frame_values start stop reply =
    firstn (Z.to_nat (Z.min stop (frame_size reply) + 1 - Z.max start 1))
           (skipn (Z.to_nat (Z.max start 1 - 1)) (pixels reply))).
  { unfold frame_values. rewrite Hpix, range_unfold. unfold count_at.
    apply counts_of_run; [lia|]. unfold frame_size in *. lia. }
  split; [exact Hpix|]. split; [exact Hvals|].
  rewrite frame_line_values, Hvals. reflexivity.
Qed.

(** ** Reading the log back *)

Lemma uint_digits d :
  Forall (fun a => Py.isdigit a = true)
         (T (DecimalString.NilEmpty.string_of_uint d)).
Proof. induction d; simpl; constructor; try exact IHd; reflexivity. Qed.

(** The digits of a decimal number, read from the left. *)
Lemma uint_value d acc :
  fold_left (fun acc a => 10 * acc + Py.digit a)
            (T (DecimalString.NilEmpty.string_of_uint d)) acc =
  Z.of_N (DecimalPos.Unsigned.of_lu (Decimal.rev d))
  + acc * Z.of_N (10 ^ DecimalPos.Unsigned.usize d).
Proof.
  revert acc.
  induction d; intros acc;
    [ cbn [DecimalString.NilEmpty.string_of_uint T list_ascii_of_string
           fold_left]; simpl; lia | .. ];
    cbn [DecimalString.NilEmpty.string_of_uint T list_ascii_of_string
         fold_left];
    unfold Decimal.rev; simpl Decimal.revapp;
    rewrite DecimalPos.Unsigned.of_lu_revapp;
    simpl DecimalPos.Unsigned.usize; rewrite N.pow_succ_r';
    rewrite IHd;
    rewrite !N2Z.inj_add, !N2Z.inj_mul;
    match goal with
    | |- context [Py.digit ?c] =>
        let v := eval vm_compute in (Py.digit c) in
        change (Py.digit c) with v
    end;
    match goal with
    | |- context [DecimalPos.Unsigned.of_lu (?D Decimal.Nil)] =>
        let v := eval vm_compute in (DecimalPos.Unsigned.of_lu (D Decimal.Nil)) in
        change (DecimalPos.Unsigned.of_lu (D Decimal.Nil)) with v
    end;
    change (Z.of_N 10) with 10; cbn [Z.of_N]; ring.
Qed.

Lemma number_text d :
  T (DecimalString.NilZero.string_of_uint d) <> [] /\
  Forall (fun a => Py.isdigit a = true)
         (T (DecimalString.NilZero.string_of_uint d)) /\
  decimal_value (T (DecimalString.NilZero.string_of_uint d)) = Z.of_uint d.
Proof.
  assert (Hval : decimal_value (T (DecimalString.NilEmpty.string_of_uint d))
                 = Z.of_uint d).
  { unfold decimal_value, Z.of_uint. rewrite uint_value.
    rewrite DecimalPos.Unsigned.of_uint_alt. lia. }
  pose proof (uint_digits d) as Hdig.
  unfold DecimalString.NilZero.string_of_uint.
  destruct d; try (split; [discriminate | split; [exact Hdig | exact Hval]]).
  split; [discriminate|]. split; [repeat constructor | reflexivity].
Qed.

Lemma digits_clean (t : text) :
  Forall (fun a => Py.isdigit a = true) t ->
  Forall (fun a => Py.int_space a = false) t.
Proof.
  intros H. eapply Forall_impl; [|exact H]. apply isdigit_not_int_space.
Qed.

(** [int] reads what [str] writes. *)
Lemma int_str (z : Z) : Py.int (Py.str z) = Returns z.
Proof.
  unfold Py.str. rewrite <- (DecimalZ.of_to z) at 2.
  destruct (Z.to_int z) as [d|d];
    destruct (number_text d) as [Hne [Hdig Hval]];
    unfold DecimalString.NilZero.string_of_int, Py.int.
  - rewrite strip_clean by (apply digits_clean, Hdig).
    pose proof (digits_all Hne Hdig) as Hd. rewrite Hval in Hd.
    destruct (T (DecimalString.NilZero.string_of_uint d)) as [|c r] eqn:Et;
      [congruence|].
    assert (Hc : Py.isdigit c = true) by (inversion Hdig; assumption).
    destruct (isdigit_not_sign _ Hc) as [-> [-> _]].
    simpl fst. simpl snd. rewrite Hd. reflexivity.
  - change (T (String "-" (DecimalString.NilZero.string_of_uint d)))
      with ("-"%char :: T (DecimalString.NilZero.string_of_uint d)).
    rewrite strip_clean
      by (constructor; [reflexivity | apply digits_clean, Hdig]).
    change (Ascii.eqb "-" "-") with true. simpl fst. simpl snd.
    rewrite (digits_all Hne Hdig), Hval. reflexivity.
Qed.

Lemma ints_of_strs (vals : list Z) :
  comprehension Py.int (map Py.str vals) = Returns vals.
Proof.
  induction vals as [|v vals IH]; simpl; [reflexivity|].
  rewrite int_str. simpl. rewrite IH. reflexivity.
Qed.

(** X12: a line of the log that holds at least one number reads back:
    stripping its newline, splitting it at the commas and giving the fields
    to [int] returns the numbers that were written, in order.  This holds
    for the heading and for every data line. *)
Theorem log_line_reads_back (vals : list Z) :
  vals <> [] ->
  comprehension Py.int
    (Str.split COMMA (Str.strip (Ascii.eqb NL) (line_of (map Py.str vals))))
  = Returns vals.
Proof.
  intros Hne. unfold line_of.
  rewrite strip_newline by apply numbers_line_no_newline.
  rewrite split_join.
  - apply ints_of_strs.
  - destruct vals; [congruence | discriminate].
  - apply Forall_forall. intros f Hf. apply in_map_iff in Hf.
    destruct Hf as [z [<- _]].
    eapply Forall_impl; [|apply str_plain]. intros a [Ha _]; exact Ha.
Qed.

Lemma log_line_reads_back_witness :
  comprehension Py.int
    (Str.split COMMA
       (Str.strip (Ascii.eqb NL) (line_of (map Py.str [280; -5; 0]))))
  = Returns [280; -5; 0].
Proof.
  apply (@log_line_reads_back [280; -5; 0]). discriminate.
Defined.

(** ** The two columns of the map *)

Lemma Forall2_map_left (A B C : Type) (f : A -> B) (R : B -> C -> Prop)
  (l : list A) (l' : list C) :
  Forall2 R (map f l) l' -> Forall2 (fun a c => R (f a) c) l l'.
Proof.
  revert l'. induction l as [|a l IH]; intros l' H; inversion H; subst;
    constructor; [assumption | apply IH; assumption].
Qed.

(** X13: when the script has read the map, every surviving row has at
    least two fields, [pix] holds [int] of the first field of every
    surviving row and [wav] holds [int] of the second one, row by row in
    file order; what a row holds after its second field is not read. *)
Theorem map_columns_are_first_two_fields (mapfile : text) (m : MapInfo) :
  read_map mapfile = Returns m ->
  Forall (fun row => (2 <= length row)%nat) (data_rows mapfile) /\
  Forall2 (fun row p => Py.int (nth 0 row []) = Returns p)
          (data_rows mapfile) (pix m) /\
  Forall2 (fun row w => Py.int (nth 1 row []) = Returns w)
          (data_rows mapfile) (wav m).
Proof.
  intros Hm. destruct (read_map_inv mapfile Hm) as [H _].
  pose proof (ints_columns_count _ H) as Hcount. simpl length in Hcount.
  split.
  - rewrite Hcount. apply min_len_lower.
  - unfold ints_from_data_columns, strings_from_data_columns in H.
    simpl bind in H. rewrite (zip_star_positions []), <- Hcount in H.
    simpl seq in H. simpl map in H.
    apply comprehension_inv in H.
    inversion H as [|? ? ? ? H0 Hrest]; subst.
    inversion Hrest as [|? ? ? ? H1 _]; subst.
    apply comprehension_inv in H0. apply comprehension_inv in H1.
    split.
    + exact (@Forall2_map_left _ _ _ (fun r : list text => nth 0 r [])
               (fun x y => Py.int x = Returns y) _ _ H0).
    + exact (@Forall2_map_left _ _ _ (fun r : list text => nth 1 r [])
               (fun x y => Py.int x = Returns y) _ _ H1).
Qed.

Lemma map_columns_are_first_two_fields_witness :
  Forall (fun row => (2 <= length row)%nat) (data_rows garbage_file) /\
  Forall2 (fun row p => Py.int (nth 0 row []) = Returns p)
          (data_rows garbage_file) [1; 3] /\
  Forall2 (fun row w => Py.int (nth 1 row []) = Returns w)
          (data_rows garbage_file) [10; 30].
Proof.
  apply (@map_columns_are_first_two_fields garbage_file
           {| pix := [1; 3]; wav := [10; 30];
              start_pixel := 1; stop_pixel := 3 |}).
  reflexivity.
Defined.

(** ** A last line without a newline *)

Lemma readlines_last_line (body : text) (a : ascii) :
  a <> NL ->
  exists ls l,
    readlines (body ++ [a]) = ls ++ [l] /\
    readlines ((body ++ [a]) ++ [NL]) = ls ++ [l ++ [NL]] /\
    l <> [] /\ Forall (fun c => c <> NL) l.
Proof.
  intros Ha. induction body as [|b body IH].
  - exists [], [a]. simpl.
    destruct (Ascii.eqb_spec a NL); [contradiction|].
    repeat split; [discriminate | repeat constructor; exact Ha].
  - destruct IH as [ls [l [E1 [E2 [Hne Hl]]]]].
    simpl app. simpl readlines. rewrite E1.
    simpl app in E2. rewrite E2.
    destruct (Ascii.eqb_spec b NL) as [->|Hb].
    + exists ([NL] :: ls), l. repeat split; assumption.
    + destruct ls as [|l0 ls0]; simpl app.
      * exists [], (b :: l).
        repeat split; [discriminate | constructor; assumption].
      * exists ((b :: l0) :: ls0), l. repeat split; assumption.
Qed.

(** X14: whether the last line of the file ends with a newline or not
    makes no difference: both functions give the same result on a file and
    on the same file with the newline added after its last character. *)
Theorem final_newline_is_optional (body : text) (a : ascii) :
  a <> NL ->
  strings_from_data_columns ((body ++ [a]) ++ [NL]) =
    strings_from_data_columns (body ++ [a]) /\
  ints_from_data_columns ((body ++ [a]) ++ [NL]) =
    ints_from_data_columns (body ++ [a]).
Proof.
  intros Ha.
  assert (Hrows : data_rows ((body ++ [a]) ++ [NL]) = data_rows (body ++ [a])).
  { destruct (readlines_last_line body Ha) as [ls [l [E1 [E2 [Hne Hl]]]]].
    unfold data_rows. rewrite E1, E2, !filter_app, !map_app. f_equal.
    assert (Hkeep : is_data_line (l ++ [NL]) = is_data_line l)
      by (destruct l; [congruence | reflexivity]).
    simpl filter. rewrite Hkeep. destruct (is_data_line l); [|reflexivity].
    simpl map. rewrite strip_newline by exact Hl.
    rewrite strip_clean by (apply not_newline_kept, Hl). reflexivity. }
  unfold ints_from_data_columns, strings_from_data_columns.
  rewrite Hrows. split; reflexivity.
Qed.

Lemma final_newline_is_optional_witness :
  strings_from_data_columns ((T "227" ++ [TAB] ++ T "28" ++ ["0"%char]) ++ [NL])
  = strings_from_data_columns (T "227" ++ [TAB] ++ T "28" ++ ["0"%char]) /\
  ints_from_data_columns ((T "227" ++ [TAB] ++ T "28" ++ ["0"%char]) ++ [NL])
  = ints_from_data_columns (T "227" ++ [TAB] ++ T "28" ++ ["0"%char]).
Proof.
  apply (@final_newline_is_optional (T "227" ++ [TAB] ++ T "28") "0"%char).
  discriminate.
Defined.
